(** * giscus-bot: the GitHub Discussions publisher (src/core/publisher.ts)

    A shallow embedding of the publisher module and the properties of its
    deduplication protocol: exact-title discovery of a discussion, category
    resolution, and the scan of a discussion's comments for persona headers;
    and of the parts of the action entry point (src/action.ts) that feed it:
    the required inputs and the exported credentials, the choice of the posts
    of a run, and the posts of a push.

    JavaScript strings are sequences of UTF-16 code units; they are modelled
    as [list N].  The GraphQL endpoint is an interface ([GitHub]) over an
    abstract remote state; asynchronous functions are computations over a
    world made of that remote state, the process environment and the log of
    requests sent. *)

From Stdlib Require Import NArith List Ascii String Lia.
From Stdlib Require QArith.
From stdpp Require Import base option list countable gmap.

Local Open Scope N_scope.

(** ** JavaScript strings *)

Module JS.

(** A string value: its UTF-16 code units. *)
Abbreviation jsstring := (list N).

(** A literal made of ASCII characters only (one code unit per character). *)
Fixpoint lit (s : string) : jsstring :=
  match s with
  | EmptyString => []
  | String a r => N_of_ascii a :: lit r
  end.

Definition LF : N := 10.          (* "\n" *)
Definition QUOTE : N := 34.       (* the double quote *)
Definition MIDDLE_DOT : N := 183. (* U+00B7 *)

(** [a === b] on two strings. *)
Fixpoint strict_eq (a b : jsstring) : bool :=
  match a, b with
  | [], [] => true
  | x :: a', y :: b' => (x =? y) && strict_eq a' b'
  | _, _ => false
  end.

(** [s.startsWith(p)] *)
Fixpoint startsWith (s p : jsstring) {struct p} : bool :=
  match p with
  | [] => true
  | y :: p' =>
      match s with
      | [] => false
      | x :: s' => (x =? y) && startsWith s' p'
      end
  end.

(** [s.split(sep)] for a separator of one code unit: never an empty array. *)
Fixpoint split (sep : N) (s : jsstring) : list jsstring :=
  match s with
  | [] => [[]]
  | c :: r =>
      if c =? sep then [] :: split sep r
      else match split sep r with
           | [] => [[c]]
           | x :: xs => (c :: x) :: xs
           end
  end.

(** [arr[0]] on the result of a split (which always has an element 0). *)
Definition first_elt (arr : list jsstring) : jsstring :=
  match arr with
  | [] => []
  | x :: _ => x
  end.

(** [s.slice(start)] for [0 <= start]: empty when [start] is past the end. *)
Definition slice (s : jsstring) (start : nat) : jsstring := drop start s.

(** WhiteSpace and LineTerminator code points of ECMAScript, the characters
    that [trim] strips. *)
Definition isWhiteSpace (c : N) : bool :=
  (c =? 9) || (c =? 10) || (c =? 11) || (c =? 12) || (c =? 13) || (c =? 32)
  || (c =? 160) || (c =? 5760)
  || ((8192 <=? c) && (c <=? 8202))
  || (c =? 8232) || (c =? 8233) || (c =? 8239) || (c =? 8287)
  || (c =? 12288) || (c =? 65279).

Fixpoint trimStart (s : jsstring) : jsstring :=
  match s with
  | [] => []
  | c :: r => if isWhiteSpace c then trimStart r else s
  end.

Definition trimEnd (s : jsstring) : jsstring := rev (trimStart (rev s)).

(** [s.trim()] *)
Definition trim (s : jsstring) : jsstring := trimEnd (trimStart s).

(** Truthiness of a string: only the empty string is falsy. *)
Definition truthy (s : jsstring) : bool :=
  match s with
  | [] => false
  | _ :: _ => true
  end.

(** [arr.join(sep)] on an array of strings. *)
Fixpoint join (sep : jsstring) (arr : list jsstring) : jsstring :=
  match arr with
  | [] => []
  | [x] => x
  | x :: rest => x ++ sep ++ join sep rest
  end.

(** [a ?? b]: the right operand only when the left one is undefined. *)
Definition nullish {A} (a b : option A) : option A :=
  match a with
  | Some x => Some x
  | None => b
  end.

(** [toLowerCase] restricted to the ASCII letters; it agrees with
    [String.prototype.toLowerCase] on strings of ASCII code units. *)
Definition ascii_toLowerCase (s : jsstring) : jsstring :=
  map (fun c => if (65 <=? c) && (c <=? 90) then c + 32 else c) s.

(** No line feed in [s]: the string is a single line for [split("\n")]. *)
Definition single_line (s : jsstring) : bool :=
  forallb (fun c => negb (c =? LF)) s.

(** Neither the first nor the last code unit of [s] is white space. *)
Definition no_outer_space (s : jsstring) : bool :=
  match head s, last s with
  | Some a, Some z => negb (isWhiteSpace a) && negb (isWhiteSpace z)
  | _, _ => true
  end.

(** [sub] occurs in [s] as a contiguous run of code units. *)
Definition occurs_in (sub s : jsstring) : Prop :=
  exists pre post, s = pre ++ sub ++ post.

End JS.
Import JS.

(** ** Wire data of the GraphQL requests *)

(** A discussion category node: [{ id, name }]. *)
Record Category := { cat_id : jsstring; cat_name : jsstring }.

(** A search result node: [{ id, title, url }]. *)
Record SearchNode := { d_id : jsstring; d_title : jsstring; d_url : jsstring }.

(** A comment node: [{ body }]. *)
Record CommentNode := { body : jsstring }.

(** [{ id, url }], what the locator and the writer return. *)
Record DiscussionRef := { id : jsstring; url : jsstring }.

(** [interface RepoInfo] *)
Record RepoInfo := { repoId : jsstring; categoryId : jsstring }.

(** The [repository] object of the categories query. *)
Record RepositoryData := {
  repository_id : jsstring;
  discussionCategories : list Category
}.

(** The five operations of the module, with their variables and the
    [first:] argument written in the query text. *)
Inductive Operation :=
| QueryRepository (owner repo : jsstring) (first : N)
| QuerySearch (searchQuery : jsstring) (first : N)
| MutationCreateDiscussion (repositoryId categoryId title body : jsstring)
| MutationAddDiscussionComment (discussionId body : jsstring)
| QueryComments (id : jsstring) (first : N).

(** A request as sent: the [authorization] header of the client and the
    operation. *)
Record Request := { authorization : jsstring; operation : Operation }.

(** What a request comes back with: data, or a rejection (bad credentials,
    network failure, GraphQL errors), which the client throws. *)
Inductive Reply (A : Type) :=
| Data (a : A)
| Rejected (message : jsstring).
Arguments Data {A} a.
Arguments Rejected {A} message.

(** The GitHub Discussions endpoint over a remote state.  Queries read the
    state; mutations return the new state.  A connection is given in full, in
    the order the remote ranks it; [page] cuts it to the [first:] asked for. *)
Class GitHub (Remote : Type) := {
  gh_repository : Remote -> jsstring -> jsstring -> jsstring -> Reply RepositoryData;
  gh_search : Remote -> jsstring -> jsstring -> Reply (list SearchNode);
  gh_comments : Remote -> jsstring -> jsstring -> Reply (list CommentNode);
  gh_createDiscussion :
    Remote -> jsstring -> jsstring -> jsstring -> jsstring -> jsstring ->
    Reply (DiscussionRef * Remote);
  gh_addDiscussionComment :
    Remote -> jsstring -> jsstring -> jsstring -> Reply (jsstring * Remote)
}.

Definition page {A} (first : N) (nodes : list A) : list A :=
  take (N.to_nat first) nodes.

(** What a JavaScript computation throws here: an [Error] built by this
    module, or the rejection of a request. *)
Inductive Thrown :=
| Error (message : jsstring)
| RequestError (message : jsstring).

Inductive Completion (A : Type) :=
| Return (a : A)
| Throw (e : Thrown).
Arguments Return {A} a.
Arguments Throw {A} e.

(** ** The publisher *)

(** The world an asynchronous function runs in. *)
Record World (Remote : Type) := {
  remote : Remote;
  env_GISCUS_BOT_GITHUB_TOKEN : option jsstring;
  sent : list Request
}.
Arguments remote {Remote} w.
Arguments env_GISCUS_BOT_GITHUB_TOKEN {Remote} w.
Arguments sent {Remote} w.

Definition Async (Remote : Type) (A : Type) : Type :=
  World Remote -> Completion A * World Remote.

#[global] Instance Async_ret {Remote} : MRet (Async Remote) :=
  fun A a w => (Return a, w).

#[global] Instance Async_bind {Remote} : MBind (Async Remote) :=
  fun A B k m w =>
    match m w with
    | (Return a, w') => k a w'
    | (Throw e, w') => (Throw e, w')
    end.

Definition throw {Remote A} (e : Thrown) : Async Remote A :=
  fun w => (Throw e, w).

(** The authenticated client: [graphql.defaults({ headers })]. *)
Record GraphQLClient := { headers_authorization : jsstring }.

(** Modelled from the spec: a persona of a PublicationRequest, already paired
    with its drafted comment text (core/generator.ts is not among the
    sources). *)
Record Draft := { personaName : jsstring; text : jsstring }.

(** Modelled from the spec: what [findOrCreateAndPublish] returns
    (core/generator.ts is not among the sources). *)
Record Publication := {
  discussionId : jsstring;
  discussionUrl : jsstring;
  published : list jsstring;
  skipped : list jsstring
}.

Section Publisher.

Context {Remote : Type} `{!GitHub Remote}.

(** [String.prototype.toLowerCase] of the runtime (full Unicode mapping). *)
Variable toLowerCase : jsstring -> jsstring.

Definition process_env_GISCUS_BOT_GITHUB_TOKEN : Async Remote (option jsstring) :=
  fun w => (Return (env_GISCUS_BOT_GITHUB_TOKEN w), w).

Definition log (client : GraphQLClient) (op : Operation) (w : World Remote)
    : World Remote :=
  {| remote := remote w;
     env_GISCUS_BOT_GITHUB_TOKEN := env_GISCUS_BOT_GITHUB_TOKEN w;
     sent := sent w ++ [{| authorization := headers_authorization client;
                           operation := op |}] |}.

Definition with_remote (r : Remote) (w : World Remote) : World Remote :=
  {| remote := r;
     env_GISCUS_BOT_GITHUB_TOKEN := env_GISCUS_BOT_GITHUB_TOKEN w;
     sent := sent w |}.

(** [await client(query, variables)] for a query: the request is logged,
    the remote state is read. *)
Definition query {A} (client : GraphQLClient) (op : Operation)
    (answer : Remote -> Reply A) : Async Remote A :=
  fun w =>
    match answer (remote w) with
    | Data a => (Return a, log client op w)
    | Rejected m => (Throw (RequestError m), log client op w)
    end.

(** [await client(mutation, variables)]: the request is logged, the remote
    state is replaced when the mutation is accepted. *)
Definition mutation {A} (client : GraphQLClient) (op : Operation)
    (answer : Remote -> Reply (A * Remote)) : Async Remote A :=
  fun w =>
    match answer (remote w) with
    | Data (a, r') => (Return a, with_remote r' (log client op w))
    | Rejected m => (Throw (RequestError m), log client op w)
    end.

Definition token_required : jsstring :=
  lit "GitHub token is required. Set GISCUS_BOT_GITHUB_TOKEN or pass it explicitly.".

(** [graphql.defaults({ headers: { authorization: `token ${authToken}` } })] *)
Definition defaults (authToken : jsstring) : GraphQLClient :=
  {| headers_authorization := lit "token " ++ authToken |}.

Definition createClient (token : option jsstring) : Async Remote GraphQLClient :=
  env ← process_env_GISCUS_BOT_GITHUB_TOKEN;
  let authToken := nullish token env in
  match authToken with
  | Some t =>
      if truthy t
      then mret (defaults t)
      else throw (Error token_required)
  | None => throw (Error token_required)
  end.

Definition category_not_found (categoryName available : jsstring) : jsstring :=
  lit "Discussion category " ++ [QUOTE] ++ categoryName ++ [QUOTE]
  ++ lit " not found. Available: " ++ available.

Definition getRepoInfo (owner repo categoryName : jsstring)
    (token : option jsstring) : Async Remote RepoInfo :=
  client ← createClient token;
  result ← query client (QueryRepository owner repo 25)
    (fun r =>
       match gh_repository r (headers_authorization client) owner repo with
       | Data rd =>
           Data {| repository_id := repository_id rd;
                   discussionCategories := page 25 (discussionCategories rd) |}
       | Rejected m => Rejected m
       end);
  let category :=
    find (fun c => strict_eq (toLowerCase (cat_name c)) (toLowerCase categoryName))
         (discussionCategories result) in
  match category with
  | None =>
      let available :=
        join (lit ", ") (map cat_name (discussionCategories result)) in
      throw (Error (category_not_found categoryName available))
  | Some category =>
      mret {| repoId := repository_id result; categoryId := cat_id category |}
  end.

Definition searchQuery_of (owner repo title : jsstring) : jsstring :=
  lit "repo:" ++ owner ++ lit "/" ++ repo ++ lit " " ++ [QUOTE] ++ title
  ++ [QUOTE] ++ lit " in:title type:discussion".

Definition findDiscussion (owner repo title : jsstring)
    (token : option jsstring) : Async Remote (option DiscussionRef) :=
  client ← createClient token;
  let searchQuery := searchQuery_of owner repo title in
  nodes ← query client (QuerySearch searchQuery 5)
    (fun r =>
       match gh_search r (headers_authorization client) searchQuery with
       | Data nodes => Data (page 5 nodes)
       | Rejected m => Rejected m
       end);
  let match_ := find (fun d => strict_eq (d_title d) title) nodes in
  mret (match match_ with
        | Some m => Some {| id := d_id m; url := d_url m |}
        | None => None
        end).

Definition createDiscussion (repoId categoryId title body : jsstring)
    (token : option jsstring) : Async Remote DiscussionRef :=
  client ← createClient token;
  mutation client (MutationCreateDiscussion repoId categoryId title body)
    (fun r => gh_createDiscussion r (headers_authorization client)
                repoId categoryId title body).

Definition addComment (discussionId body : jsstring)
    (token : option jsstring) : Async Remote jsstring :=
  client ← createClient token;
  mutation client (MutationAddDiscussionComment discussionId body)
    (fun r => gh_addDiscussionComment r (headers_authorization client)
                discussionId body).

(** The header every bot comment starts with: [`${labelPrefix} · Persona: `]. *)
Definition persona_prefix (labelPrefix : jsstring) : jsstring :=
  labelPrefix ++ lit " " ++ [MIDDLE_DOT] ++ lit " Persona: ".

(** One turn of the loop over the comments. *)
Definition scan_step (prefix : jsstring) (personas : gset jsstring)
    (comment : CommentNode) : gset jsstring :=
  if startsWith (body comment) prefix then
    let firstLine := first_elt (split LF (body comment)) in
    let name := trim (slice firstLine (length prefix)) in
    if truthy name then {[ name ]} ∪ personas else personas
  else personas.

Definition scan_comments (labelPrefix : jsstring) (nodes : list CommentNode)
    : gset jsstring :=
  foldl (scan_step (persona_prefix labelPrefix)) ∅ nodes.

Definition getDiscussionBotComments (discussionId labelPrefix : jsstring)
    (token : option jsstring) : Async Remote (gset jsstring) :=
  client ← createClient token;
  nodes ← query client (QueryComments discussionId 100)
    (fun r =>
       match gh_comments r (headers_authorization client) discussionId with
       | Data nodes => Data (page 100 nodes)
       | Rejected m => Rejected m
       end);
  mret (scan_comments labelPrefix nodes).

Definition findOrCreateDiscussion (owner repo categoryName title body : jsstring)
    (token : option jsstring) : Async Remote DiscussionRef :=
  existing ← findDiscussion owner repo title token;
  match existing with
  | Some existing => mret existing
  | None =>
      repoInfo ← getRepoInfo owner repo categoryName token;
      createDiscussion (repoId repoInfo) (categoryId repoInfo) title body token
  end.

(** Modelled from the spec: the comment body the Publication Orchestrator
    formats for the Comment Writer (core/generator.ts is not among the
    sources): [<labelPrefix> · Persona: <personaName>\n\n<text>]. *)
Definition formatComment (labelPrefix personaName text : jsstring) : jsstring :=
  persona_prefix labelPrefix ++ personaName ++ [LF; LF] ++ text.

(** Modelled from the spec: step 3 of the Publication Orchestrator, one
    Comment Writer call for each persona of the request that is not in the
    scanned set, in the order of the request; the others are reported as
    skipped.  A failed call aborts the remaining ones. *)
Fixpoint publishMissing (discussionId labelPrefix : jsstring)
    (scanned : gset jsstring) (personas : list Draft) (token : option jsstring)
    : Async Remote (list jsstring * list jsstring) :=
  match personas with
  | [] => mret ([], [])
  | p :: rest =>
      if decide (personaName p ∈ scanned) then
        r ← publishMissing discussionId labelPrefix scanned rest token;
        mret (fst r, personaName p :: snd r)
      else
        _ ← addComment discussionId
              (formatComment labelPrefix (personaName p) (text p)) token;
        r ← publishMissing discussionId labelPrefix scanned rest token;
        mret (personaName p :: fst r, snd r)
  end.

(** Modelled from the spec: the Publication Orchestrator
    [findOrCreateAndPublish] (core/generator.ts is not among the sources):
    locate or create the discussion, scan it, write the missing comments,
    report what was published and what was skipped. *)
Definition findOrCreateAndPublish
    (owner repo categoryName title body labelPrefix : jsstring)
    (personas : list Draft) (token : option jsstring) : Async Remote Publication :=
  d ← findOrCreateDiscussion owner repo categoryName title body token;
  scanned ← getDiscussionBotComments (id d) labelPrefix token;
  r ← publishMissing (id d) labelPrefix scanned personas token;
  mret {| discussionId := id d; discussionUrl := url d;
          published := fst r; skipped := snd r |}.

End Publisher.

(** ** A small in-memory directory, used in the worked examples *)

Module Directory.

(** One repository: its categories, its discussions in the order a search
    ranks them, and the comments of each discussion by discussion id. *)
Record t := {
  repo_id : jsstring;
  categories : list Category;
  discussions : list SearchNode;
  comments : list (jsstring * list CommentNode)
}.

Fixpoint comments_of (discussionId : jsstring)
    (cs : list (jsstring * list CommentNode)) : option (list CommentNode) :=
  match cs with
  | [] => None
  | (i, l) :: rest =>
      if strict_eq i discussionId then Some l else comments_of discussionId rest
  end.

Fixpoint add_comment (discussionId : jsstring) (c : CommentNode)
    (cs : list (jsstring * list CommentNode)) : list (jsstring * list CommentNode) :=
  match cs with
  | [] => [(discussionId, [c])]
  | (i, l) :: rest =>
      if strict_eq i discussionId then (i, l ++ [c]) :: rest
      else (i, l) :: add_comment discussionId c rest
  end.

(** The search of this directory over-matches: it ranks every discussion. *)
#[global] Instance github : GitHub t := {|
  gh_repository r _ _ _ :=
    Data {| repository_id := repo_id r; discussionCategories := categories r |};
  gh_search r _ _ := Data (discussions r);
  gh_comments r _ discussionId :=
    match comments_of discussionId (comments r) with
    | Some l => Data l
    | None => Rejected (lit "Could not resolve to a node")
    end;
  gh_createDiscussion r _ _ _ title _ :=
    let d := {| d_id := lit "D_" ++ title; d_title := title;
                d_url := lit "https://github.com/o/r/discussions/" ++ title |} in
    Data ({| id := d_id d; url := d_url d |},
          {| repo_id := repo_id r; categories := categories r;
             discussions := discussions r ++ [d];
             comments := comments r ++ [(d_id d, [])] |});
  gh_addDiscussionComment r _ discussionId body :=
    Data (lit "DC_" ++ discussionId,
          {| repo_id := repo_id r; categories := categories r;
             discussions := discussions r;
             comments := add_comment discussionId {| body := body |} (comments r) |})
|}.

Definition discussion (i title : string) : SearchNode :=
  {| d_id := lit i; d_title := lit title;
     d_url := lit "https://github.com/o/r/discussions/" ++ lit i |}.

Definition category (i name : string) : Category :=
  {| cat_id := lit i; cat_name := lit name |}.

(** The label prefix of the default configuration: the robot emoji (U+1F916,
    a surrogate pair) followed by [ **AI-Generated Comment**]. *)
Definition default_prefix : jsstring :=
  [55358; 56598] ++ lit " **AI-Generated Comment**".

(** A blog repository with two categories and two discussions whose titles
    share a prefix; the first one carries a comment of "Curious Reader". *)
Definition blog : t := {|
  repo_id := lit "R_1";
  categories := [category "DIC_1" "General"; category "DIC_2" "Blog Comments"];
  discussions := [discussion "D_1" "My Post"; discussion "D_2" "My Post 2"];
  comments :=
    [(lit "D_1",
      [{| body := lit "Nice article, thanks." |};
       {| body := default_prefix ++ lit " " ++ [MIDDLE_DOT]
                  ++ lit " Persona: Curious Reader" ++ [LF; LF]
                  ++ lit "Great post!" |}]);
     (lit "D_2", [])]
|}.

(** The same repository after six more posts: "First Post" is ranked sixth
    by the search. *)
Definition crowded : t := {|
  repo_id := lit "R_1";
  categories := categories blog;
  discussions :=
    [discussion "D_3" "First Post 2"; discussion "D_4" "First Post 3";
     discussion "D_5" "First Post 4"; discussion "D_6" "First Post 5";
     discussion "D_7" "First Post 6"; discussion "D_0" "First Post"];
  comments := []
|}.

(** A label prefix of two lines. *)
Definition two_line_prefix : jsstring :=
  lit "**AI-Generated Comment**" ++ [LF] ++ lit "_automated_".

(** The blog when it is run with the two-line label prefix: "Curious Reader"
    has commented on "My Post" under that label. *)
Definition relabelled : t := {|
  repo_id := lit "R_1";
  categories := categories blog;
  discussions := discussions blog;
  comments :=
    [(lit "D_1",
      [{| body := formatComment two_line_prefix (lit "Curious Reader")
                    (lit "Great post!") |}]);
     (lit "D_2", [])]
|}.

(** The blog when the persona is configured as "Curious Reader " with a
    trailing space: its comment on "My Post" carries that name. *)
Definition padded : t := {|
  repo_id := lit "R_1";
  categories := categories blog;
  discussions := discussions blog;
  comments :=
    [(lit "D_1",
      [{| body := formatComment default_prefix (lit "Curious Reader ")
                    (lit "Great post!") |}]);
     (lit "D_2", [])]
|}.

(** The blog right after its first run: the only comment on "My Post" is
    the one of "Curious Reader". *)
Definition seeded : t := {|
  repo_id := lit "R_1";
  categories := categories blog;
  discussions := discussions blog;
  comments :=
    [(lit "D_1",
      [{| body := formatComment default_prefix (lit "Curious Reader")
                    (lit "Great post!") |}]);
     (lit "D_2", [])]
|}.

(** Two drafts, as the comment drafter hands them over. *)
Definition drafts : list Draft :=
  [{| personaName := lit "Curious Reader"; text := lit "What about tests?" |};
   {| personaName := lit "Devil's Advocate"; text := lit "I am not convinced." |}].

(** "My Post" after a long human discussion: a hundred comments of readers,
    then the comment of "Curious Reader". *)
Definition busy : t := {|
  repo_id := lit "R_1";
  categories := categories blog;
  discussions := discussions blog;
  comments :=
    [(lit "D_1",
      replicate 100 {| body := lit "Nice article, thanks." |}
      ++ [{| body := formatComment default_prefix (lit "Curious Reader")
                       (lit "Great post!") |}]);
     (lit "D_2", [])]
|}.

(** A repository in which Discussions has no category yet. *)
Definition bare : t := {|
  repo_id := lit "R_2";
  categories := [];
  discussions := [];
  comments := []
|}.

(** A personal access token, the repository coordinates, and a world in
    which the token comes from the environment. *)
Definition pat : jsstring := lit "ghp_0123456789".
Definition owner : jsstring := lit "user".
Definition repo : jsstring := lit "blog".

Definition world (r : t) (env : option jsstring) : World t :=
  {| remote := r; env_GISCUS_BOT_GITHUB_TOKEN := env; sent := [] |}.

End Directory.

(** ** An endpoint with outages, used in the worked examples *)

Module Outage.

(** Which of the three requests of the search-before-create sequence the
    endpoint answers; the others are rejected.  The repository is empty: no
    discussion, one category. *)
Record t := { search_up : bool; repository_up : bool; create_up : bool }.

Definition bad_gateway : jsstring := lit "502 Bad Gateway".

#[global] Instance github : GitHub t := {|
  gh_repository r _ _ _ :=
    if repository_up r
    then Data {| repository_id := lit "R_1";
                 discussionCategories := [Directory.category "DIC_1" "General"] |}
    else Rejected bad_gateway;
  gh_search r _ _ := if search_up r then Data [] else Rejected bad_gateway;
  gh_comments _ _ _ := Rejected bad_gateway;
  gh_createDiscussion r _ _ _ title _ :=
    if create_up r
    then Data ({| id := lit "D_" ++ title;
                  url := lit "https://github.com/o/r/discussions/" ++ title |}, r)
    else Rejected bad_gateway;
  gh_addDiscussionComment _ _ _ _ := Rejected bad_gateway
|}.

Definition world (r : t) : World t :=
  {| remote := r; env_GISCUS_BOT_GITHUB_TOKEN := Some Directory.pat; sent := [] |}.

End Outage.

(** ** The action entry point (src/action.ts) *)

Module Action.

(** [process.env]: the variables that are set, by name. *)
Abbreviation Env := (gmap jsstring jsstring).

(** [!value] is false: the variable is set to a non-empty string. *)
Definition given (value : option jsstring) : option jsstring :=
  match value with
  | Some v => if truthy v then Some v else None
  | None => None
  end.

(** [PROVIDER_ENV_MAP[providerName]] when it is truthy, as the property key
    it is then used as: the two entries of the literal, and for any other
    name what the object inherits from [Object.prototype] under that name,
    coerced to a string ([inherited]; no entry for most names). *)
Definition PROVIDER_ENV_MAP (inherited : jsstring -> option jsstring)
    (providerName : jsstring) : option jsstring :=
  if strict_eq providerName (lit "openai") then Some (lit "GISCUS_BOT_OPENAI_API_KEY")
  else if strict_eq providerName (lit "claude") then Some (lit "GISCUS_BOT_CLAUDE_API_KEY")
  else inherited providerName.

(** The head of [run]: the three required inputs are read and checked, then
    the token and the provider key are exported to the environment. *)
Definition export_credentials (inherited : jsstring -> option jsstring)
    (env : Env) : Completion Env :=
  let githubToken := env !! lit "INPUT_GITHUB_TOKEN" in
  let providerName := env !! lit "INPUT_PROVIDER" in
  let apiKey := env !! lit "INPUT_API_KEY" in
  match given githubToken with
  | None => Throw (Error (lit "github-token input is required"))
  | Some githubToken =>
      match given providerName with
      | None => Throw (Error (lit "provider input is required"))
      | Some providerName =>
          match given apiKey with
          | None => Throw (Error (lit "api-key input is required"))
          | Some apiKey =>
              let env := <[lit "GISCUS_BOT_GITHUB_TOKEN" := githubToken]> env in
              match PROVIDER_ENV_MAP inherited providerName with
              | Some name => Return (<[name := apiKey]> env)
              | None => Return env
              end
          end
      end
  end.

(** The world the publisher runs in under a given environment. *)
Definition world_of {Remote} (r : Remote) (env : Env) (log : list Request)
    : World Remote :=
  {| remote := r;
     env_GISCUS_BOT_GITHUB_TOKEN := env !! lit "GISCUS_BOT_GITHUB_TOKEN";
     sent := log |}.

(** [[arr[i], arr[j]] = [arr[j], arr[i]]] for two indices of the array (in
    [shuffle], [j <= i < arr.length]). *)
Definition swap {T} (i j : nat) (arr : list T) : list T :=
  match arr !! i, arr !! j with
  | Some x, Some y => <[j := x]> (<[i := y]> arr)
  | _, _ => arr
  end.

(** The loop of [shuffle], from index [i] down to 1.  [draw i] is the value
    of [Math.floor(Math.random() * (i + 1))] at the turn of index [i]: an
    integer from 0 to [i]. *)
Fixpoint shuffle_from {T} (draw : forall i : nat, fin (S i)) (i : nat)
    (arr : list T) : list T :=
  match i with
  | O => arr
  | S i' => shuffle_from draw i' (swap (S i') (fin_to_nat (draw (S i'))) arr)
  end.

(** [shuffle(arr)]: the array after the loop. *)
Definition shuffle {T} (draw : forall i : nat, fin (S i)) (arr : list T) : list T :=
  shuffle_from draw (length arr - 1) arr.

(** A number value, as far as [slice] tells numbers apart. *)
Inductive Number :=
| NaN
| PlusInfinity
| MinusInfinity
| Finite (q : QArith_base.Q).

(** The index at which [arr.slice(0, end)] stops, for an array of [len]
    elements: [end] is truncated to an integer, counted from the end of the
    array when negative, and clamped to the array. *)
Definition slice_end (len : nat) (end_ : Number) : nat :=
  match end_ with
  | NaN => 0%nat
  | PlusInfinity => len
  | MinusInfinity => 0%nat
  | Finite q =>
      let relativeEnd := Z.quot (QArith_base.Qnum q) (Zpos (QArith_base.Qden q)) in
      if (relativeEnd <? 0)%Z
      then Z.to_nat (Z.max (Z.of_nat len + relativeEnd) 0)
      else Z.to_nat (Z.min relativeEnd (Z.of_nat len))
  end.

(** [arr.slice(0, end)] *)
Definition slice_to {T} (arr : list T) (end_ : Number) : list T :=
  take (slice_end (length arr) end_) arr.

(** The posts of an automatic run: [postsPerRun ?? 1] of the shuffled files. *)
Definition selected (draw : forall i : nat, fin (S i))
    (postsPerRun : option Number) (allFiles : list jsstring) : list jsstring :=
  let postsPerRun := default (Finite (QArith_base.Qmake 1 1)) postsPerRun in
  let allFiles := shuffle draw allFiles in
  slice_to allFiles postsPerRun.

(** A commit of the push payload: [commit.added] may be missing. *)
Record Commit := { added : option (list jsstring) }.

(** [s.endsWith(suffix)] *)
Definition endsWith (s suffix : jsstring) : bool :=
  startsWith (rev s) (rev suffix).

(** [file.match(/\.(md|mdx)$/)] finds a match. *)
Definition matches_markdown (file : jsstring) : bool :=
  endsWith file (lit ".md") || endsWith file (lit ".mdx").

(** The directory names of [/^(content|_posts|src\/posts|posts|blog)\//]. *)
Definition content_dirs : list jsstring :=
  [lit "content"; lit "_posts"; lit "src/posts"; lit "posts"; lit "blog"].

(** [file.match(/^(content|_posts|src\/posts|posts|blog)\//)] finds a match. *)
Definition matches_content_dir (file : jsstring) : bool :=
  existsb (fun dir => startsWith file (dir ++ lit "/")) content_dirs.

(** The push trigger: the added files of the commits that are markdown files
    of a content directory, in the order they are met. *)
Definition detect_new_posts (commits : option (list Commit)) : list jsstring :=
  match commits with
  | None => []
  | Some commits =>
      foldl (fun files commit =>
               foldl (fun files file =>
                        if matches_markdown file && matches_content_dir file
                        then files ++ [file]
                        else files)
                     files (default [] (added commit)))
            [] commits
  end.

(** Samples: two members every object inherits, as property keys; random
    draws that always give index 0; the inputs of a run; a push of two
    commits. *)
Definition object_prototype (name : jsstring) : option jsstring :=
  if strict_eq name (lit "toString")
  then Some (lit "function toString() { [native code] }")
  else if strict_eq name (lit "__proto__")
  then Some (lit "[object Object]")
  else None.

Definition always_first (i : nat) : fin (S i) := 0%fin.

Definition inputs : Env :=
  <[lit "INPUT_GITHUB_TOKEN" := lit "ghp_0123456789"]>
    (<[lit "INPUT_PROVIDER" := lit "openai"]>
       (<[lit "INPUT_API_KEY" := lit "sk-1"]> ∅)).

Definition push : list Commit :=
  [{| added := Some [lit "_posts/hello.md"; lit "README.md"; lit "posts/notes.txt"] |};
   {| added := None |};
   {| added := Some [lit "src/posts/a.mdx"; lit "_posts/hello.md"] |}].

End Action.

(** ** Strings: the facts the publisher relies on *)

Lemma strict_eq_spec (a b : jsstring) : strict_eq a b = true <-> a = b.
Proof.
  revert b; induction a as [|x a IH]; intros [|y b]; simpl; try (split; congruence).
  rewrite andb_true_iff, N.eqb_eq, IH. split.
  - intros [-> ->]; reflexivity.
  - intros [= -> ->]; auto.
Qed.

Lemma strict_eq_false (a b : jsstring) : strict_eq a b = false <-> a <> b.
Proof.
  rewrite <- strict_eq_spec. destruct (strict_eq a b); split; congruence.
Qed.

Lemma startsWith_spec (s p : jsstring) :
  startsWith s p = true <-> exists rest, s = p ++ rest.
Proof.
  revert s; induction p as [|y p IH]; intros s; simpl.
  - split; [intros _; exists s; reflexivity | reflexivity].
  - destruct s as [|x s].
    + split; [congruence | intros [r [=]]].
    + rewrite andb_true_iff, N.eqb_eq, IH. split.
      * intros [-> [r ->]]; eauto.
      * intros [r [= -> ->]]; eauto.
Qed.

Lemma startsWith_app (p rest : jsstring) : startsWith (p ++ rest) p = true.
Proof. apply startsWith_spec; eauto. Qed.

Lemma split_nonempty (sep : N) (s : jsstring) : split sep s <> [].
Proof.
  induction s as [|c r IH]; simpl; [congruence|].
  destruct (c =? sep); [congruence|].
  destruct (split sep r); congruence.
Qed.

(** The first piece of a split is the text before the first separator. *)
Lemma first_elt_split_app (sep : N) (a r : jsstring) :
  sep ∉ a -> first_elt (split sep (a ++ sep :: r)) = a.
Proof.
  induction a as [|c a IH]; intros Hn; simpl.
  - rewrite N.eqb_refl; reflexivity.
  - destruct (N.eqb_spec c sep) as [->|Hc].
    + exfalso; apply Hn; left.
    + assert (Ha : sep ∉ a) by (intros Hin; apply Hn; right; exact Hin).
      specialize (IH Ha).
      destruct (split sep (a ++ sep :: r)) as [|x xs] eqn:E.
      * exfalso; eapply split_nonempty; eauto.
      * simpl in *; congruence.
Qed.

Lemma truthy_spec (s : jsstring) : truthy s = true <-> s <> [].
Proof. destruct s; simpl; split; congruence. Qed.

Lemma trimStart_id (c : N) (s : jsstring) :
  isWhiteSpace c = false -> trimStart (c :: s) = c :: s.
Proof. intros H; simpl; rewrite H; reflexivity. Qed.

(** A string that neither starts nor ends with white space is its own trim. *)
Lemma trim_id (s : jsstring) :
  (forall c, head s = Some c -> isWhiteSpace c = false) ->
  (forall c, last s = Some c -> isWhiteSpace c = false) ->
  trim s = s.
Proof.
  intros Hh Hl. unfold trim, trimEnd.
  destruct s as [|c s]; [reflexivity|].
  rewrite trimStart_id by (apply Hh; reflexivity).
  destruct (rev (c :: s)) as [|z zs] eqn:E.
  - apply (f_equal (@length N)) in E. rewrite length_rev in E. discriminate.
  - assert (Hz : last (c :: s) = Some z).
    { rewrite <- (rev_involutive (c :: s)), E. simpl. apply last_snoc. }
    rewrite trimStart_id by (apply Hl; exact Hz).
    rewrite <- E. apply rev_involutive.
Qed.

Lemma join_cons (sep x : jsstring) (arr : list jsstring) :
  arr <> [] -> join sep (x :: arr) = x ++ sep ++ join sep arr.
Proof. destruct arr; [congruence | reflexivity]. Qed.

(** Every element of the array occurs in the joined string. *)
Lemma join_occurs (sep x : jsstring) (arr : list jsstring) :
  x ∈ arr -> occurs_in x (join sep arr).
Proof.
  induction arr as [|y arr IH]; intros Hin; [inversion Hin|].
  destruct arr as [|z arr].
  - inversion Hin as [|? ? ? Hnil]; subst; [|inversion Hnil].
    exists [], []. simpl. rewrite app_nil_r. reflexivity.
  - rewrite join_cons by discriminate.
    inversion Hin as [|? ? ? Hrest]; subst.
    + exists [], (sep ++ join sep (z :: arr)). reflexivity.
    + destruct (IH Hrest) as (pre & post & Hp).
      exists (y ++ sep ++ pre), post. rewrite Hp.
      rewrite <- !app_assoc. reflexivity.
Qed.

(** [find] returns the first element that passes the test. *)
Lemma find_first {A} (f : A -> bool) (l : list A) (x : A) :
  find f l = Some x ->
  exists l1 l2, l = l1 ++ x :: l2 /\ f x = true /\ (forall y, y ∈ l1 -> f y = false).
Proof.
  induction l as [|a l IH]; simpl; [congruence|].
  destruct (f a) eqn:Ea.
  - intros [= ->]. exists [], l. repeat split; auto. intros y Hy; inversion Hy.
  - intros Hf. destruct (IH Hf) as (l1 & l2 & -> & Hx & Hn).
    exists (a :: l1), l2. repeat split; auto.
    intros y Hy. inversion Hy; subst; auto.
Qed.

Lemma find_none_iff {A} (f : A -> bool) (l : list A) :
  find f l = None <-> (forall y, y ∈ l -> f y = false).
Proof.
  induction l as [|a l IH]; simpl.
  - split; auto. intros _ y Hy; inversion Hy.
  - destruct (f a) eqn:Ea.
    + split; [congruence|]. intros Hn. rewrite Hn in Ea by left. discriminate.
    + rewrite IH. split.
      * intros Hn y Hy. inversion Hy; subst; auto.
      * intros Hn y Hy. apply Hn. right; exact Hy.
Qed.

Lemma find_is_some {A} (f : A -> bool) (l : list A) (x : A) :
  x ∈ l -> f x = true -> exists y, find f l = Some y.
Proof.
  intros Hin Hx. destruct (find f l) eqn:E; eauto.
  rewrite find_none_iff in E. rewrite E in Hx by assumption. discriminate.
Qed.

(** The element after a run of failures is the one [find] returns. *)
Lemma find_app_first {A} (f : A -> bool) (l1 l2 : list A) (x : A) :
  (forall y, y ∈ l1 -> f y = false) -> f x = true ->
  find f (l1 ++ x :: l2) = Some x.
Proof.
  induction l1 as [|a l1 IH]; intros Hn Hx; simpl.
  - rewrite Hx. reflexivity.
  - rewrite (Hn a) by left. apply IH; [|exact Hx].
    intros y Hy. apply Hn. right; exact Hy.
Qed.

Lemma single_line_spec (s : jsstring) : single_line s = true <-> LF ∉ s.
Proof.
  unfold single_line. induction s as [|c s IH]; simpl.
  - split; auto. intros _ H; inversion H.
  - rewrite andb_true_iff, IH, negb_true_iff, N.eqb_neq. split.
    + intros [Hc Hs] Hin. inversion Hin; subst; auto.
    + intros Hn. split.
      * intros ->. apply Hn; left.
      * intros Hin. apply Hn; right; exact Hin.
Qed.

Lemma single_line_app (a b : jsstring) :
  single_line (a ++ b) = single_line a && single_line b.
Proof. unfold single_line. apply forallb_app. Qed.

Lemma no_outer_space_trim (s : jsstring) : no_outer_space s = true -> trim s = s.
Proof.
  unfold no_outer_space. intros H. apply trim_id; intros c Hc; rewrite Hc in H.
  - destruct (last s) eqn:El.
    + apply andb_true_iff in H as [H _]. now apply negb_true_iff in H.
    + apply last_None in El. subst s. discriminate Hc.
  - destruct (head s) eqn:Eh.
    + apply andb_true_iff in H as [_ H]. now apply negb_true_iff in H.
    + apply head_None in Eh. subst s. discriminate Hc.
Qed.

(** ** Running the publisher *)

Section Facts.

Context {Remote : Type} `{!GitHub Remote}.
Variable toLowerCase : jsstring -> jsstring.

Implicit Types (w : World Remote) (token : option jsstring).

Lemma bind_run {A B} (m : Async Remote A) (k : A -> Async Remote B) w :
  (m ≫= k) w =
  match m w with
  | (Return a, w') => k a w'
  | (Throw e, w') => (Throw e, w')
  end.
Proof. reflexivity. Qed.

(** The client is built when the token, passed or read from the
    environment, is a non-empty string; nothing is sent. *)
Lemma createClient_ok token w t :
  nullish token (env_GISCUS_BOT_GITHUB_TOKEN w) = Some t ->
  truthy t = true ->
  createClient token w = (Return (defaults t), w).
Proof.
  intros Ht Hne. unfold createClient. rewrite bind_run. simpl.
  rewrite Ht, Hne. reflexivity.
Qed.

Lemma createClient_missing token w :
  match nullish token (env_GISCUS_BOT_GITHUB_TOKEN w) with
  | Some t => truthy t = false
  | None => True
  end ->
  createClient token w = (Throw (Error token_required), w).
Proof.
  intros H. unfold createClient. rewrite bind_run. simpl.
  destruct (nullish token (env_GISCUS_BOT_GITHUB_TOKEN w)) as [t|]; [|reflexivity].
  rewrite H. reflexivity.
Qed.

(** What [createClient] does depends on the environment alone, and it leaves
    the world as it was. *)
Lemma createClient_world token w c w' :
  createClient token w = (c, w') -> w' = w.
Proof.
  unfold createClient. rewrite bind_run. simpl.
  destruct (nullish token (env_GISCUS_BOT_GITHUB_TOKEN w)) as [t|];
    [destruct (truthy t)|]; intros [= _ <-]; reflexivity.
Qed.

(** The exact-title filter of the locator, on the nodes of a reply. *)
Lemma findDiscussion_run owner repo title token w t nodes :
  nullish token (env_GISCUS_BOT_GITHUB_TOKEN w) = Some t ->
  truthy t = true ->
  gh_search (remote w) (headers_authorization (defaults t))
    (searchQuery_of owner repo title) = Data nodes ->
  findDiscussion owner repo title token w =
    (Return (match find (fun d => strict_eq (d_title d) title) (page 5 nodes) with
             | Some m => Some {| id := d_id m; url := d_url m |}
             | None => None
             end),
     log (defaults t) (QuerySearch (searchQuery_of owner repo title) 5) w).
Proof.
  intros Ht Hne Hs. unfold findDiscussion.
  rewrite bind_run, (createClient_ok _ _ _ Ht Hne), bind_run.
  unfold query. rewrite Hs. reflexivity.
Qed.

Lemma getRepoInfo_run owner repo categoryName token w t rd :
  nullish token (env_GISCUS_BOT_GITHUB_TOKEN w) = Some t ->
  truthy t = true ->
  gh_repository (remote w) (headers_authorization (defaults t)) owner repo = Data rd ->
  getRepoInfo toLowerCase owner repo categoryName token w =
    match find (fun c => strict_eq (toLowerCase (cat_name c)) (toLowerCase categoryName))
               (page 25 (discussionCategories rd)) with
    | None =>
        (Throw (Error (category_not_found categoryName
                         (join (lit ", ")
                            (map cat_name (page 25 (discussionCategories rd)))))),
         log (defaults t) (QueryRepository owner repo 25) w)
    | Some c =>
        (Return {| repoId := repository_id rd; categoryId := cat_id c |},
         log (defaults t) (QueryRepository owner repo 25) w)
    end.
Proof.
  intros Ht Hne Hr. unfold getRepoInfo.
  rewrite bind_run, (createClient_ok _ _ _ Ht Hne), bind_run.
  unfold query. rewrite Hr. simpl.
  destruct (find _ _); reflexivity.
Qed.

Lemma getDiscussionBotComments_run discussionId labelPrefix token w t nodes :
  nullish token (env_GISCUS_BOT_GITHUB_TOKEN w) = Some t ->
  truthy t = true ->
  gh_comments (remote w) (headers_authorization (defaults t)) discussionId = Data nodes ->
  getDiscussionBotComments discussionId labelPrefix token w =
    (Return (scan_comments labelPrefix (page 100 nodes)),
     log (defaults t) (QueryComments discussionId 100) w).
Proof.
  intros Ht Hne Hc. unfold getDiscussionBotComments.
  rewrite bind_run, (createClient_ok _ _ _ Ht Hne), bind_run.
  unfold query. rewrite Hc. reflexivity.
Qed.

Lemma createDiscussion_run repoId categoryId title body token w t d r' :
  nullish token (env_GISCUS_BOT_GITHUB_TOKEN w) = Some t ->
  truthy t = true ->
  gh_createDiscussion (remote w) (headers_authorization (defaults t))
    repoId categoryId title body = Data (d, r') ->
  createDiscussion repoId categoryId title body token w =
    (Return d,
     with_remote r'
       (log (defaults t) (MutationCreateDiscussion repoId categoryId title body) w)).
Proof.
  intros Ht Hne Hc. unfold createDiscussion.
  rewrite bind_run, (createClient_ok _ _ _ Ht Hne).
  unfold mutation. rewrite Hc. reflexivity.
Qed.

(** No node of the requested page has the title: the locator returns null. *)
Lemma findDiscussion_none owner repo title token w t nodes :
  nullish token (env_GISCUS_BOT_GITHUB_TOKEN w) = Some t ->
  truthy t = true ->
  gh_search (remote w) (headers_authorization (defaults t))
    (searchQuery_of owner repo title) = Data nodes ->
  (forall n, n ∈ page 5 nodes -> d_title n <> title) ->
  findDiscussion owner repo title token w =
    (Return None,
     log (defaults t) (QuerySearch (searchQuery_of owner repo title) 5) w).
Proof.
  intros Ht Hne Hs Hmiss.
  rewrite (findDiscussion_run _ _ _ _ _ _ _ Ht Hne Hs).
  assert (Ef : find (fun d => strict_eq (d_title d) title) (page 5 nodes) = None).
  { apply find_none_iff. intros n Hn. apply strict_eq_false, Hmiss, Hn. }
  rewrite Ef. reflexivity.
Qed.

(** A located discussion: the locator sent one search, changed nothing on the
    remote, and its answer depends on the remote state and the environment
    only. *)
Lemma findDiscussion_found owner repo title token w d w1 :
  findDiscussion owner repo title token w = (Return (Some d), w1) ->
  exists t,
    nullish token (env_GISCUS_BOT_GITHUB_TOKEN w) = Some t /\ truthy t = true /\
    w1 = log (defaults t) (QuerySearch (searchQuery_of owner repo title) 5) w /\
    forall w',
      remote w' = remote w ->
      env_GISCUS_BOT_GITHUB_TOKEN w' = env_GISCUS_BOT_GITHUB_TOKEN w ->
      findDiscussion owner repo title token w' =
        (Return (Some d),
         log (defaults t) (QuerySearch (searchQuery_of owner repo title) 5) w').
Proof.
  intros Hf.
  destruct (nullish token (env_GISCUS_BOT_GITHUB_TOKEN w)) as [t|] eqn:Ht.
  2:{ unfold findDiscussion in Hf.
      rewrite bind_run, createClient_missing in Hf by (rewrite Ht; exact I).
      discriminate. }
  destruct (truthy t) eqn:Hne.
  2:{ unfold findDiscussion in Hf.
      rewrite bind_run, createClient_missing in Hf by (rewrite Ht; exact Hne).
      discriminate. }
  exists t. split; [reflexivity|]. split; [exact Hne|].
  destruct (gh_search (remote w) (headers_authorization (defaults t))
              (searchQuery_of owner repo title)) as [nodes|m] eqn:Hs.
  - rewrite (findDiscussion_run _ _ _ _ _ _ _ Ht Hne Hs) in Hf.
    injection Hf as Hd Hw. split; [congruence|].
    intros w' Hr He. rewrite <- Hr in Hs. rewrite <- He in Ht.
    rewrite (findDiscussion_run _ _ _ _ _ _ _ Ht Hne Hs), Hd. reflexivity.
  - unfold findDiscussion in Hf.
    rewrite bind_run, (createClient_ok _ _ _ Ht Hne), bind_run in Hf.
    unfold query in Hf. rewrite Hs in Hf. discriminate.
Qed.

(** ** The Discussion Locator *)

(** C1 (idempotent discovery).  When the locator finds a discussion for the
    title, [findOrCreateDiscussion] returns that very id and url; the only
    request it sends is the title search (no category lookup, no
    create-discussion mutation), and the remote state is left as it was.
    A further call from any world with the same remote state and environment,
    in particular the world the first call ended in, returns the same
    discussion again, and again sends only the search. *)
Theorem findOrCreateDiscussion_idempotent
    owner repo categoryName title body token w d w1 :
  findDiscussion owner repo title token w = (Return (Some d), w1) ->
  exists t,
    let search :=
      {| authorization := headers_authorization (defaults t);
         operation := QuerySearch (searchQuery_of owner repo title) 5 |} in
    findOrCreateDiscussion toLowerCase owner repo categoryName title body token w
      = (Return d, w1)
    /\ remote w1 = remote w
    /\ sent w1 = sent w ++ [search]
    /\ forall w',
         remote w' = remote w ->
         env_GISCUS_BOT_GITHUB_TOKEN w' = env_GISCUS_BOT_GITHUB_TOKEN w ->
         exists w2,
           findOrCreateDiscussion toLowerCase owner repo categoryName title body
             token w' = (Return d, w2)
           /\ remote w2 = remote w
           /\ sent w2 = sent w' ++ [search].
Proof.
  intros Hf. destruct (findDiscussion_found _ _ _ _ _ _ _ Hf)
    as (t & Ht & Hne & -> & Hagain).
  exists t. cbv zeta. split.
  { unfold findOrCreateDiscussion. rewrite bind_run, Hf. reflexivity. }
  split; [reflexivity|]. split; [reflexivity|].
  intros w' Hr He. eexists. split.
  { unfold findOrCreateDiscussion. rewrite bind_run, (Hagain w' Hr He).
    reflexivity. }
  split; [exact Hr | reflexivity].
Qed.

(** C2 (exact-title filtering).  With a usable token and a reply to the
    search, the locator returns, and it returns a discussion exactly when a
    node of the requested page has a title equal, code unit for code unit,
    to the candidate title: the discussion returned is the id and url of the
    first such node (every node before it has another title), and when there
    is such a node the locator does return it, not "not found". *)
Theorem findDiscussion_exact_title owner repo title token w t nodes :
  nullish token (env_GISCUS_BOT_GITHUB_TOKEN w) = Some t ->
  truthy t = true ->
  gh_search (remote w) (headers_authorization (defaults t))
    (searchQuery_of owner repo title) = Data nodes ->
  exists result,
    findDiscussion owner repo title token w =
      (Return result,
       log (defaults t) (QuerySearch (searchQuery_of owner repo title) 5) w)
    /\ (forall d, result = Some d <->
          exists before n after,
            page 5 nodes = before ++ n :: after
            /\ d_title n = title
            /\ d = {| id := d_id n; url := d_url n |}
            /\ forall m, m ∈ before -> d_title m <> title)
    /\ (result = None <-> forall n, n ∈ page 5 nodes -> d_title n <> title).
Proof.
  intros Ht Hne Hs. eexists. split.
  { apply (findDiscussion_run _ _ _ _ _ _ _ Ht Hne Hs). }
  split.
  - intros d. split.
    + intros Hd.
      destruct (find _ (page 5 nodes)) as [n|] eqn:Ef; [|discriminate].
      injection Hd as <-.
      destruct (find_first _ _ _ Ef) as (before & after & Hp & Hn & Hb).
      exists before, n, after. split; [exact Hp|].
      split; [apply strict_eq_spec, Hn|]. split; [reflexivity|].
      intros m Hm. apply strict_eq_false, Hb, Hm.
    + intros (before & n & after & Hp & Hn & -> & Hb).
      rewrite Hp, (find_app_first _ before after n); [reflexivity| |].
      * intros m Hm. apply strict_eq_false, Hb, Hm.
      * apply strict_eq_spec, Hn.
  - destruct (find _ (page 5 nodes)) as [n|] eqn:Ef.
    + split; [discriminate|]. intros Hmiss. exfalso.
      destruct (find_first _ _ _ Ef) as (before & after & Hp & Hn & _).
      apply (Hmiss n); [|apply strict_eq_spec, Hn].
      rewrite Hp. apply elem_of_app. right. apply list_elem_of_here.
    + split; [|reflexivity]. intros _ m Hm.
      apply strict_eq_false. apply (proj1 (find_none_iff _ _) Ef), Hm.
Qed.

(** C8 (a miss is not an error).  With a usable token and a reply to the
    search, when no node of the requested page has the candidate title, the
    locator returns the value "not found" ([null]); it does not throw. *)
Theorem findDiscussion_miss_returns_null owner repo title token w t nodes :
  nullish token (env_GISCUS_BOT_GITHUB_TOKEN w) = Some t ->
  truthy t = true ->
  gh_search (remote w) (headers_authorization (defaults t))
    (searchQuery_of owner repo title) = Data nodes ->
  (forall n, n ∈ page 5 nodes -> d_title n <> title) ->
  findDiscussion owner repo title token w =
    (Return None,
     log (defaults t) (QuerySearch (searchQuery_of owner repo title) 5) w).
Proof.
  intros Ht Hne Hs Hmiss.
  exact (findDiscussion_none _ _ _ _ _ _ _ Ht Hne Hs Hmiss).
Qed.

(** C10 (search window).  The locator asks for the first 5 results of the
    search and looks at nothing else: when a discussion with the candidate
    title is ranked by the remote but none of the first 5 results has that
    title, the locator returns "not found", having sent a search with
    [first: 5]; [findOrCreateDiscussion] then goes on to resolve the
    category and, when that succeeds and the remote accepts the mutation,
    creates a second discussion with that title. *)
Theorem findDiscussion_search_window
    owner repo categoryName title body token w t nodes n :
  nullish token (env_GISCUS_BOT_GITHUB_TOKEN w) = Some t ->
  truthy t = true ->
  gh_search (remote w) (headers_authorization (defaults t))
    (searchQuery_of owner repo title) = Data nodes ->
  n ∈ nodes -> d_title n = title ->
  (forall m, m ∈ page 5 nodes -> d_title m <> title) ->
  let w1 := log (defaults t) (QuerySearch (searchQuery_of owner repo title) 5) w in
  findDiscussion owner repo title token w = (Return None, w1)
  /\ (n ∉ page 5 nodes)
  /\ forall rd c new r',
       gh_repository (remote w) (headers_authorization (defaults t)) owner repo
         = Data rd ->
       find (fun c => strict_eq (toLowerCase (cat_name c)) (toLowerCase categoryName))
            (page 25 (discussionCategories rd)) = Some c ->
       gh_createDiscussion (remote w) (headers_authorization (defaults t))
         (repository_id rd) (cat_id c) title body = Data (new, r') ->
       findOrCreateDiscussion toLowerCase owner repo categoryName title body token w
         = (Return new,
            with_remote r'
              (log (defaults t)
                 (MutationCreateDiscussion (repository_id rd) (cat_id c) title body)
                 (log (defaults t) (QueryRepository owner repo 25) w1))).
Proof.
  intros Ht Hne Hs Hn Htitle Hmiss w1.
  assert (Hnull : findDiscussion owner repo title token w = (Return None, w1)).
  { apply (findDiscussion_none _ _ _ _ _ _ _ Ht Hne Hs Hmiss). }
  split; [exact Hnull|]. split.
  { intros Hin. apply (Hmiss n Hin Htitle). }
  intros rd c new r' Hrepo Hcat Hcreate.
  unfold findOrCreateDiscussion. rewrite bind_run, Hnull, bind_run.
  rewrite (getRepoInfo_run owner repo categoryName token w1 t rd Ht Hne Hrepo), Hcat.
  apply createDiscussion_run; assumption.
Qed.

End Facts.

(** *** Worked examples of the locator *)

(** The blog has "My Post" and "My Post 2"; a request for "My Post" is
    answered with the first one, and nothing is created. *)
Lemma findOrCreateDiscussion_idempotent_witness :
  findDiscussion Directory.owner Directory.repo (lit "My Post") None
    (Directory.world Directory.blog (Some Directory.pat))
  = (Return (Some {| id := lit "D_1";
                     url := lit "https://github.com/o/r/discussions/D_1" |}),
     log (defaults Directory.pat)
       (QuerySearch (searchQuery_of Directory.owner Directory.repo (lit "My Post")) 5)
       (Directory.world Directory.blog (Some Directory.pat)))
  /\ fst (findOrCreateDiscussion ascii_toLowerCase Directory.owner Directory.repo
            (lit "General") (lit "My Post") (lit "https://blog/my-post") None
            (Directory.world Directory.blog (Some Directory.pat)))
     = Return {| id := lit "D_1";
                 url := lit "https://github.com/o/r/discussions/D_1" |}.
Proof.
  assert (H : findDiscussion Directory.owner Directory.repo (lit "My Post") None
                (Directory.world Directory.blog (Some Directory.pat))
              = (Return (Some {| id := lit "D_1";
                                 url := lit "https://github.com/o/r/discussions/D_1" |}),
                 log (defaults Directory.pat)
                   (QuerySearch
                      (searchQuery_of Directory.owner Directory.repo (lit "My Post")) 5)
                   (Directory.world Directory.blog (Some Directory.pat))))
    by reflexivity.
  split; [exact H|].
  destruct (findOrCreateDiscussion_idempotent ascii_toLowerCase
              Directory.owner Directory.repo (lit "General") (lit "My Post")
              (lit "https://blog/my-post") None _ _ _ H) as (t & Hr & _).
  rewrite Hr. reflexivity.
Defined.

(** Of the results "My Post" and "My Post 2", the request for "My Post" is
    answered with the first, and not with the second. *)
Lemma findDiscussion_exact_title_witness :
  nullish None (env_GISCUS_BOT_GITHUB_TOKEN
                  (Directory.world Directory.blog (Some Directory.pat)))
    = Some Directory.pat
  /\ truthy Directory.pat = true
  /\ gh_search Directory.blog (headers_authorization (defaults Directory.pat))
       (searchQuery_of Directory.owner Directory.repo (lit "My Post"))
     = Data [Directory.discussion "D_1" "My Post";
             Directory.discussion "D_2" "My Post 2"]
  /\ findDiscussion Directory.owner Directory.repo (lit "My Post") None
       (Directory.world Directory.blog (Some Directory.pat))
     = (Return (Some {| id := lit "D_1";
                        url := lit "https://github.com/o/r/discussions/D_1" |}),
        log (defaults Directory.pat)
          (QuerySearch
             (searchQuery_of Directory.owner Directory.repo (lit "My Post")) 5)
          (Directory.world Directory.blog (Some Directory.pat)))
  /\ fst (findDiscussion Directory.owner Directory.repo (lit "My Post") None
            (Directory.world Directory.blog (Some Directory.pat)))
     <> Return (Some {| id := lit "D_2";
                        url := lit "https://github.com/o/r/discussions/D_2" |}).
Proof.
  split; [reflexivity|]. split; [reflexivity|]. split; [reflexivity|].
  destruct (@findDiscussion_exact_title _ Directory.github
              Directory.owner Directory.repo (lit "My Post") None
              (Directory.world Directory.blog (Some Directory.pat)) Directory.pat
              [Directory.discussion "D_1" "My Post";
               Directory.discussion "D_2" "My Post 2"]
              eq_refl eq_refl eq_refl) as (result & Hrun & Hsome & _).
  assert (Hfirst : result
                   = Some {| id := lit "D_1";
                             url := lit "https://github.com/o/r/discussions/D_1" |}).
  { apply Hsome.
    exists [], (Directory.discussion "D_1" "My Post"),
           [Directory.discussion "D_2" "My Post 2"].
    split; [reflexivity|]. split; [reflexivity|]. split; [reflexivity|].
    intros m Hm. inversion Hm. }
  rewrite Hrun, Hfirst. split; [reflexivity|]. simpl. discriminate.
Defined.

(** Of "My Post" and "My Post 2", only the first matches "My Post"; and
    "My Post 2" is found as itself. *)
Example findDiscussion_my_post :
  fst (findDiscussion Directory.owner Directory.repo (lit "My Post") None
         (Directory.world Directory.blog (Some Directory.pat)))
  = Return (Some {| id := lit "D_1";
                    url := lit "https://github.com/o/r/discussions/D_1" |})
  /\ fst (findDiscussion Directory.owner Directory.repo (lit "My Post 2") None
            (Directory.world Directory.blog (Some Directory.pat)))
     = Return (Some {| id := lit "D_2";
                       url := lit "https://github.com/o/r/discussions/D_2" |}).
Proof. split; reflexivity. Qed.

Lemma findDiscussion_miss_returns_null_witness :
  nullish None (env_GISCUS_BOT_GITHUB_TOKEN
                  (Directory.world Directory.blog (Some Directory.pat)))
    = Some Directory.pat
  /\ truthy Directory.pat = true
  /\ gh_search Directory.blog (headers_authorization (defaults Directory.pat))
       (searchQuery_of Directory.owner Directory.repo (lit "My Pos"))
     = Data (Directory.discussions Directory.blog)
  /\ (forall n, n ∈ page 5 (Directory.discussions Directory.blog) ->
        d_title n <> lit "My Pos")
  /\ findDiscussion Directory.owner Directory.repo (lit "My Pos") None
       (Directory.world Directory.blog (Some Directory.pat))
     = (Return None,
        log (defaults Directory.pat)
          (QuerySearch (searchQuery_of Directory.owner Directory.repo (lit "My Pos")) 5)
          (Directory.world Directory.blog (Some Directory.pat))).
Proof.
  assert (Hmiss : forall n, n ∈ page 5 (Directory.discussions Directory.blog) ->
                    d_title n <> lit "My Pos").
  { intros n Hn.
    apply (proj1 (Forall_forall (fun n => d_title n <> lit "My Pos")
                    (page 5 (Directory.discussions Directory.blog)))); [|exact Hn].
    repeat constructor; discriminate. }
  split; [reflexivity|]. split; [reflexivity|]. split; [reflexivity|].
  split; [exact Hmiss|].
  apply (findDiscussion_miss_returns_null Directory.owner Directory.repo
           (lit "My Pos") None (Directory.world Directory.blog (Some Directory.pat))
           Directory.pat (Directory.discussions Directory.blog));
    [reflexivity | reflexivity | reflexivity | exact Hmiss].
Defined.

(** "First Post" exists but is ranked sixth: the locator misses it and a
    second discussion with that title is created. *)
Lemma findDiscussion_search_window_witness :
  nullish None (env_GISCUS_BOT_GITHUB_TOKEN
                  (Directory.world Directory.crowded (Some Directory.pat)))
    = Some Directory.pat
  /\ truthy Directory.pat = true
  /\ gh_search Directory.crowded (headers_authorization (defaults Directory.pat))
       (searchQuery_of Directory.owner Directory.repo (lit "First Post"))
     = Data (Directory.discussions Directory.crowded)
  /\ Directory.discussion "D_0" "First Post" ∈ Directory.discussions Directory.crowded
  /\ (forall m, m ∈ page 5 (Directory.discussions Directory.crowded) ->
        d_title m <> lit "First Post")
  /\ fst (findDiscussion Directory.owner Directory.repo (lit "First Post") None
            (Directory.world Directory.crowded (Some Directory.pat)))
     = Return None
  /\ fst (findOrCreateDiscussion ascii_toLowerCase Directory.owner Directory.repo
            (lit "general") (lit "First Post") (lit "https://blog/first-post") None
            (Directory.world Directory.crowded (Some Directory.pat)))
     = Return {| id := lit "D_First Post";
                 url := lit "https://github.com/o/r/discussions/First Post" |}
  /\ map d_id
       (filter (fun d => d_title d = lit "First Post")
          (Directory.discussions
             (remote
                (snd (findOrCreateDiscussion ascii_toLowerCase Directory.owner
                        Directory.repo (lit "general") (lit "First Post")
                        (lit "https://blog/first-post") None
                        (Directory.world Directory.crowded (Some Directory.pat)))))))
     = [lit "D_0"; lit "D_First Post"].
Proof.
  assert (Hin : Directory.discussion "D_0" "First Post"
                  ∈ Directory.discussions Directory.crowded)
    by (do 5 apply list_elem_of_further; apply list_elem_of_here).
  assert (Hmiss : forall m, m ∈ page 5 (Directory.discussions Directory.crowded) ->
                    d_title m <> lit "First Post").
  { intros m Hm.
    apply (proj1 (Forall_forall (fun m => d_title m <> lit "First Post")
                    (page 5 (Directory.discussions Directory.crowded)))); [|exact Hm].
    repeat constructor; discriminate. }
  split; [reflexivity|]. split; [reflexivity|]. split; [reflexivity|].
  split; [exact Hin|]. split; [exact Hmiss|].
  destruct (@findDiscussion_search_window _ Directory.github ascii_toLowerCase
              Directory.owner Directory.repo (lit "general") (lit "First Post")
              (lit "https://blog/first-post") None
              (Directory.world Directory.crowded (Some Directory.pat))
              Directory.pat (Directory.discussions Directory.crowded)
              (Directory.discussion "D_0" "First Post")
              eq_refl eq_refl eq_refl Hin eq_refl Hmiss) as (Hnull & _ & Hcreate).
  split; [rewrite Hnull; reflexivity|].
  rewrite (Hcreate _ _ _ _ eq_refl eq_refl eq_refl).
  split; reflexivity.
Defined.

(** ** The Repository Resolver *)

Section Resolver.

Context {Remote : Type} `{!GitHub Remote}.
Variable toLowerCase : jsstring -> jsstring.

Implicit Types (w : World Remote) (token : option jsstring).

(** C6 (category miss).  With a usable token and a reply to the categories
    query, when no category of the reply has the requested name (compared
    after lowercasing, as the resolver keys categories), the resolver throws
    an [Error] whose message quotes the requested name and lists, separated
    by ", ", the names of all the categories of the reply: each of these
    names occurs in the message.  (The spec's NotFoundError is this throw;
    the module has no error classes.) *)
Theorem getRepoInfo_category_miss owner repo categoryName token w t rd :
  nullish token (env_GISCUS_BOT_GITHUB_TOKEN w) = Some t ->
  truthy t = true ->
  gh_repository (remote w) (headers_authorization (defaults t)) owner repo = Data rd ->
  (forall c, c ∈ page 25 (discussionCategories rd) ->
     toLowerCase (cat_name c) <> toLowerCase categoryName) ->
  let available := join (lit ", ") (map cat_name (page 25 (discussionCategories rd))) in
  let message :=
    lit "Discussion category " ++ [QUOTE] ++ categoryName ++ [QUOTE]
    ++ lit " not found. Available: " ++ available in
  getRepoInfo toLowerCase owner repo categoryName token w =
    (Throw (Error message), log (defaults t) (QueryRepository owner repo 25) w)
  /\ forall c, c ∈ page 25 (discussionCategories rd) -> occurs_in (cat_name c) message.
Proof.
  intros Ht Hne Hr Hmiss available message. split.
  - rewrite (getRepoInfo_run toLowerCase owner repo categoryName token w t rd Ht Hne Hr).
    assert (Ef : find (fun c => strict_eq (toLowerCase (cat_name c))
                                  (toLowerCase categoryName))
                   (page 25 (discussionCategories rd)) = None).
    { apply find_none_iff. intros c Hc. apply strict_eq_false, Hmiss, Hc. }
    rewrite Ef. reflexivity.
  - intros c Hc.
    destruct (join_occurs (lit ", ") (cat_name c)
                (map cat_name (page 25 (discussionCategories rd))))
      as (pre & post & Hj).
    { apply list_elem_of_fmap. exists c. split; [reflexivity | exact Hc]. }
    exists (lit "Discussion category " ++ [QUOTE] ++ categoryName ++ [QUOTE]
            ++ lit " not found. Available: " ++ pre), post.
    unfold message, available. rewrite Hj.
    repeat rewrite <- app_assoc. reflexivity.
Qed.

(** C7 (case-insensitive resolution).  With a usable token and a reply to
    the categories query, when some category of the reply has a name equal
    to the requested one after lowercasing, the resolver returns the
    repository id and the id of a category whose lowercased name equals the
    lowercased request: the first such category of the reply.  When the
    matching categories all carry one id, that is the id returned. *)
Theorem getRepoInfo_case_insensitive owner repo categoryName token w t rd c :
  nullish token (env_GISCUS_BOT_GITHUB_TOKEN w) = Some t ->
  truthy t = true ->
  gh_repository (remote w) (headers_authorization (defaults t)) owner repo = Data rd ->
  c ∈ page 25 (discussionCategories rd) ->
  toLowerCase (cat_name c) = toLowerCase categoryName ->
  exists c' before after,
    getRepoInfo toLowerCase owner repo categoryName token w =
      (Return {| repoId := repository_id rd; categoryId := cat_id c' |},
       log (defaults t) (QueryRepository owner repo 25) w)
    /\ page 25 (discussionCategories rd) = before ++ c' :: after
    /\ toLowerCase (cat_name c') = toLowerCase categoryName
    /\ (forall b, b ∈ before -> toLowerCase (cat_name b) <> toLowerCase categoryName)
    /\ ((forall c2, c2 ∈ page 25 (discussionCategories rd) ->
           toLowerCase (cat_name c2) = toLowerCase categoryName ->
           cat_id c2 = cat_id c) ->
        cat_id c' = cat_id c).
Proof.
  intros Ht Hne Hr Hc Hname.
  destruct (find_is_some
              (fun c => strict_eq (toLowerCase (cat_name c)) (toLowerCase categoryName))
              _ c Hc) as [c' Ef].
  { apply strict_eq_spec, Hname. }
  destruct (find_first _ _ _ Ef) as (before & after & Hp & Hc' & Hb).
  apply strict_eq_spec in Hc'.
  exists c', before, after. split.
  { rewrite (getRepoInfo_run toLowerCase owner repo categoryName token w t rd Ht Hne Hr),
      Ef. reflexivity. }
  split; [exact Hp|]. split; [exact Hc'|]. split.
  { intros b Hin. apply strict_eq_false, Hb, Hin. }
  intros Huniq. apply Huniq; [|exact Hc'].
  rewrite Hp. apply elem_of_app. right. apply list_elem_of_here.
Qed.

End Resolver.

(** Asking the blog for "Nonexistent" fails with a message that names both
    "General" and "Blog Comments". *)
Lemma getRepoInfo_category_miss_witness :
  nullish None (env_GISCUS_BOT_GITHUB_TOKEN
                  (Directory.world Directory.blog (Some Directory.pat)))
    = Some Directory.pat
  /\ truthy Directory.pat = true
  /\ gh_repository Directory.blog (headers_authorization (defaults Directory.pat))
       Directory.owner Directory.repo
     = Data {| repository_id := lit "R_1";
               discussionCategories := Directory.categories Directory.blog |}
  /\ (forall c, c ∈ page 25 (Directory.categories Directory.blog) ->
        ascii_toLowerCase (cat_name c) <> ascii_toLowerCase (lit "Nonexistent"))
  /\ fst (getRepoInfo ascii_toLowerCase Directory.owner Directory.repo
            (lit "Nonexistent") None
            (Directory.world Directory.blog (Some Directory.pat)))
     = Throw (Error (lit "Discussion category " ++ [QUOTE] ++ lit "Nonexistent"
                     ++ [QUOTE]
                     ++ lit " not found. Available: General, Blog Comments"))
  /\ occurs_in (lit "General")
       (lit "Discussion category " ++ [QUOTE] ++ lit "Nonexistent" ++ [QUOTE]
        ++ lit " not found. Available: General, Blog Comments")
  /\ occurs_in (lit "Blog Comments")
       (lit "Discussion category " ++ [QUOTE] ++ lit "Nonexistent" ++ [QUOTE]
        ++ lit " not found. Available: General, Blog Comments").
Proof.
  assert (Hmiss : forall c, c ∈ page 25 (Directory.categories Directory.blog) ->
            ascii_toLowerCase (cat_name c) <> ascii_toLowerCase (lit "Nonexistent")).
  { intros c Hc.
    apply (proj1 (Forall_forall
                    (fun c => ascii_toLowerCase (cat_name c)
                              <> ascii_toLowerCase (lit "Nonexistent"))
                    (page 25 (Directory.categories Directory.blog)))); [|exact Hc].
    repeat constructor; discriminate. }
  split; [reflexivity|]. split; [reflexivity|]. split; [reflexivity|].
  split; [exact Hmiss|].
  destruct (@getRepoInfo_category_miss _ Directory.github ascii_toLowerCase
              Directory.owner Directory.repo (lit "Nonexistent") None
              (Directory.world Directory.blog (Some Directory.pat)) Directory.pat
              _ eq_refl eq_refl eq_refl Hmiss) as [Hthrow Hall].
  split; [rewrite Hthrow; reflexivity|].
  split.
  - apply (Hall (Directory.category "DIC_1" "General")). apply list_elem_of_here.
  - apply (Hall (Directory.category "DIC_2" "Blog Comments")).
    apply list_elem_of_further, list_elem_of_here.
Defined.

(** "blog COMMENTS" resolves to the category named "Blog Comments". *)
Lemma getRepoInfo_case_insensitive_witness :
  nullish None (env_GISCUS_BOT_GITHUB_TOKEN
                  (Directory.world Directory.blog (Some Directory.pat)))
    = Some Directory.pat
  /\ truthy Directory.pat = true
  /\ gh_repository Directory.blog (headers_authorization (defaults Directory.pat))
       Directory.owner Directory.repo
     = Data {| repository_id := lit "R_1";
               discussionCategories := Directory.categories Directory.blog |}
  /\ Directory.category "DIC_2" "Blog Comments"
       ∈ page 25 (Directory.categories Directory.blog)
  /\ ascii_toLowerCase (lit "Blog Comments") = ascii_toLowerCase (lit "blog COMMENTS")
  /\ fst (getRepoInfo ascii_toLowerCase Directory.owner Directory.repo
            (lit "blog COMMENTS") None
            (Directory.world Directory.blog (Some Directory.pat)))
     = Return {| repoId := lit "R_1"; categoryId := lit "DIC_2" |}.
Proof.
  assert (Hin : Directory.category "DIC_2" "Blog Comments"
                  ∈ page 25 (Directory.categories Directory.blog))
    by (apply list_elem_of_further, list_elem_of_here).
  split; [reflexivity|]. split; [reflexivity|]. split; [reflexivity|].
  split; [exact Hin|]. split; [reflexivity|].
  destruct (@getRepoInfo_case_insensitive _ Directory.github ascii_toLowerCase
              Directory.owner Directory.repo (lit "blog COMMENTS") None
              (Directory.world Directory.blog (Some Directory.pat)) Directory.pat
              _ (Directory.category "DIC_2" "Blog Comments")
              eq_refl eq_refl eq_refl Hin eq_refl)
    as (c' & before & after & Hrun & _ & _ & _ & Hid).
  rewrite Hrun. simpl. f_equal. f_equal. apply Hid.
  intros c2 Hc2 Hname.
  apply (proj1 (Forall_forall
                  (fun c2 => ascii_toLowerCase (cat_name c2)
                             = ascii_toLowerCase (lit "blog COMMENTS") ->
                             cat_id c2 = lit "DIC_2")
                  (page 25 (Directory.categories Directory.blog)))); [|exact Hc2|exact Hname].
  repeat constructor; discriminate.
Defined.

(** ** The credential *)

Section Credential.

Context {Remote : Type} `{!GitHub Remote}.
Variable toLowerCase : jsstring -> jsstring.

Implicit Types (w : World Remote) (token : option jsstring).

(** C9, as the code has it (missing credential).  The token is the one
    passed, and the environment variable only when none is passed
    ([token ?? process.env.GISCUS_BOT_GITHUB_TOKEN]).  When that token is
    undefined or the empty string, in particular when no token is passed and
    the variable is unset, the construction of the client and each of the
    five operations throw the "GitHub token is required" [Error] and leave
    the world as it was: no request is sent.  When that token is a non-empty
    string, the client is built with [authorization: token <token>].  (The
    spec's AuthError is this throw; the module has no error classes.) *)
Theorem createClient_credential token w :
  (match nullish token (env_GISCUS_BOT_GITHUB_TOKEN w) with
   | Some t => truthy t = false
   | None => True
   end ->
   createClient token w = (Throw (Error token_required), w)
   /\ (forall owner repo categoryName,
         getRepoInfo toLowerCase owner repo categoryName token w
         = (Throw (Error token_required), w))
   /\ (forall owner repo title,
         findDiscussion owner repo title token w = (Throw (Error token_required), w))
   /\ (forall repoId categoryId title body,
         createDiscussion repoId categoryId title body token w
         = (Throw (Error token_required), w))
   /\ (forall discussionId body,
         addComment discussionId body token w = (Throw (Error token_required), w))
   /\ (forall discussionId labelPrefix,
         getDiscussionBotComments discussionId labelPrefix token w
         = (Throw (Error token_required), w)))
  /\ (forall t,
        nullish token (env_GISCUS_BOT_GITHUB_TOKEN w) = Some t ->
        truthy t = true ->
        createClient token w = (Return (defaults t), w)).
Proof.
  split.
  - intros Hmissing.
    pose proof (createClient_missing token w Hmissing) as Hc.
    split; [exact Hc|].
    unfold getRepoInfo, findDiscussion, createDiscussion, addComment,
      getDiscussionBotComments.
    repeat split; intros; rewrite bind_run, Hc; reflexivity.
  - intros t Ht Hne. apply createClient_ok; assumption.
Qed.

End Credential.

(** No token passed and the variable unset: every operation throws before a
    request is sent.  With the variable set, the client is built. *)
Lemma createClient_credential_witness :
  (fst (getRepoInfo ascii_toLowerCase Directory.owner Directory.repo (lit "General")
          None (Directory.world Directory.blog None))
   = Throw (Error token_required)
   /\ sent (snd (findDiscussion Directory.owner Directory.repo (lit "My Post")
                   None (Directory.world Directory.blog None))) = [])
  /\ createClient None (Directory.world Directory.blog (Some Directory.pat))
     = (Return {| headers_authorization := lit "token ghp_0123456789" |},
        Directory.world Directory.blog (Some Directory.pat)).
Proof.
  split.
  - destruct (proj1 (@createClient_credential _ Directory.github ascii_toLowerCase
                       None (Directory.world Directory.blog None)) I)
      as (_ & Hrepo & Hfind & _).
    rewrite Hrepo, Hfind. split; reflexivity.
  - apply (proj2 (@createClient_credential _ Directory.github ascii_toLowerCase
                    None (Directory.world Directory.blog (Some Directory.pat)))
             Directory.pat); reflexivity.
Defined.

(** C9 as stated fails: the environment supplies a token, yet the client is
    not built, because an empty string was passed explicitly and [??] falls
    back to the environment on [undefined] only. *)
Lemma createClient_empty_token_shadows_env :
  env_GISCUS_BOT_GITHUB_TOKEN (Directory.world Directory.blog (Some Directory.pat))
    = Some Directory.pat
  /\ truthy Directory.pat = true
  /\ createClient (Some []) (Directory.world Directory.blog (Some Directory.pat))
     = (Throw (Error token_required),
        Directory.world Directory.blog (Some Directory.pat)).
Proof. repeat split. Qed.

(** ** The Bot-Comment Scanner *)

(** A comment adds [name] to the set: its body starts with the header, and
    [name] is the non-empty trim of what its first line holds past the
    length of the header. *)
Lemma scan_step_elem (prefix name : jsstring) (acc : gset jsstring) (c : CommentNode) :
  name ∈ scan_step prefix acc c <->
  name ∈ acc \/
  (startsWith (body c) prefix = true
   /\ name = trim (slice (first_elt (split LF (body c))) (length prefix))
   /\ name <> []).
Proof.
  unfold scan_step.
  destruct (startsWith (body c) prefix) eqn:Es.
  - cbv zeta.
    destruct (truthy (trim (slice (first_elt (split LF (body c))) (length prefix))))
      eqn:Et.
    + rewrite elem_of_union, elem_of_singleton. apply truthy_spec in Et.
      split.
      * intros [-> | Hin]; [right; auto | left; exact Hin].
      * intros [Hin | (_ & -> & _)]; [right; exact Hin | left; reflexivity].
    + split; [intros Hin; left; exact Hin|].
      intros [Hin | (_ & -> & Hne)]; [exact Hin|].
      apply truthy_spec in Hne. congruence.
  - split; [intros Hin; left; exact Hin|].
    intros [Hin | (Hs & _)]; [exact Hin | discriminate Hs].
Qed.

Lemma scan_foldl_elem (prefix name : jsstring) (nodes : list CommentNode)
    (acc : gset jsstring) :
  name ∈ foldl (scan_step prefix) acc nodes <->
  name ∈ acc \/
  exists c, c ∈ nodes
    /\ startsWith (body c) prefix = true
    /\ name = trim (slice (first_elt (split LF (body c))) (length prefix))
    /\ name <> [].
Proof.
  revert acc. induction nodes as [|c nodes IH]; intros acc; simpl.
  - split; [intros Hin; left; exact Hin|].
    intros [Hin | (c & Hc & _)]; [exact Hin | inversion Hc].
  - rewrite IH, scan_step_elem. split.
    + intros [[Hin | Hadd] | (c' & Hc' & Hadd)].
      * left; exact Hin.
      * right. exists c. split; [apply list_elem_of_here | exact Hadd].
      * right. exists c'. split; [apply list_elem_of_further, Hc' | exact Hadd].
    + intros [Hin | (c' & Hc' & Hadd)].
      * left; left; exact Hin.
      * inversion Hc'; subst.
        -- left; right; exact Hadd.
        -- right. exists c'. split; assumption.
Qed.

Lemma persona_prefix_app (labelPrefix rest : jsstring) :
  persona_prefix labelPrefix ++ rest =
  labelPrefix ++ lit " " ++ [MIDDLE_DOT] ++ lit " Persona: " ++ rest.
Proof. unfold persona_prefix. rewrite <- !app_assoc. reflexivity. Qed.

(** The header has no line feed when the label prefix has none. *)
Lemma persona_prefix_single_line (labelPrefix : jsstring) :
  single_line (persona_prefix labelPrefix) = single_line labelPrefix.
Proof.
  unfold persona_prefix. rewrite single_line_app. simpl.
  apply andb_true_r.
Qed.

(** Scanning one comment written in the wire format, for a single-line label
    prefix and a well-formed persona name, finds that name. *)
Lemma scan_step_formatted (labelPrefix personaName text : jsstring)
    (acc : gset jsstring) :
  single_line labelPrefix = true ->
  truthy personaName = true ->
  single_line personaName = true ->
  no_outer_space personaName = true ->
  scan_step (persona_prefix labelPrefix) acc
    {| body := persona_prefix labelPrefix ++ personaName ++ [LF; LF] ++ text |}
  = {[ personaName ]} ∪ acc.
Proof.
  intros Hlp Hne Hsl Hsp. unfold scan_step. simpl body.
  rewrite startsWith_app. cbv zeta.
  replace (persona_prefix labelPrefix ++ personaName ++ LF :: LF :: text)
    with ((persona_prefix labelPrefix ++ personaName) ++ LF :: LF :: text)
    by (rewrite <- app_assoc; reflexivity).
  rewrite first_elt_split_app.
  2:{ apply single_line_spec. rewrite single_line_app, persona_prefix_single_line,
        Hlp, Hsl. reflexivity. }
  unfold slice. rewrite drop_app_length.
  rewrite (no_outer_space_trim _ Hsp), Hne. reflexivity.
Qed.

Section Scanner.

Context {Remote : Type} `{!GitHub Remote}.

Implicit Types (w : World Remote) (token : option jsstring).

(** C3 (prefix-boundary parsing).  With a usable token and a reply to the
    comments query, the scanner returns a set whose members are exactly the
    names contributed by the comments of the requested page: a comment
    contributes when its body starts with [<labelPrefix> · Persona: ] and
    the rest of its first line (the first line with the length of that
    header sliced off), trimmed, is not empty; what it contributes is that
    trimmed rest.  No other comment contributes anything. *)
Theorem getDiscussionBotComments_prefix_boundary
    discussionId labelPrefix token w t nodes :
  nullish token (env_GISCUS_BOT_GITHUB_TOKEN w) = Some t ->
  truthy t = true ->
  gh_comments (remote w) (headers_authorization (defaults t)) discussionId
    = Data nodes ->
  exists personas : gset jsstring,
    getDiscussionBotComments discussionId labelPrefix token w =
      (Return personas, log (defaults t) (QueryComments discussionId 100) w)
    /\ forall name,
         name ∈ personas <->
         exists c rest,
           c ∈ page 100 nodes
           /\ body c = labelPrefix ++ lit " " ++ [MIDDLE_DOT] ++ lit " Persona: " ++ rest
           /\ name = trim (slice (first_elt (split LF (body c)))
                             (length (labelPrefix ++ lit " " ++ [MIDDLE_DOT]
                                      ++ lit " Persona: ")))
           /\ name <> [].
Proof.
  intros Ht Hne Hc. eexists. split.
  { apply (getDiscussionBotComments_run _ _ _ _ _ _ Ht Hne Hc). }
  intros name. unfold scan_comments. rewrite scan_foldl_elem.
  change (labelPrefix ++ lit " " ++ [MIDDLE_DOT] ++ lit " Persona: ")
    with (persona_prefix labelPrefix).
  split.
  - intros [Hin | (c & Hc' & Hs & Hn & Hne')]; [set_solver|].
    apply startsWith_spec in Hs as [rest Hrest].
    exists c, rest. rewrite persona_prefix_app in Hrest. auto.
  - intros (c & rest & Hc' & Hb & Hn & Hne').
    right. exists c. split; [exact Hc'|]. split; [|auto].
    apply startsWith_spec. exists rest. rewrite Hb, persona_prefix_app. reflexivity.
Qed.

(** C4, as the code has it (round trip of the wire format).  For a label
    prefix without line feed, a persona name that is non-empty, without line
    feed and without white space at either end, and any text, scanning the
    one comment [<labelPrefix> · Persona: <personaName>\n\n<text>] with that
    label prefix returns exactly the set of that name. *)
Theorem getDiscussionBotComments_round_trip
    discussionId labelPrefix personaName text token w t :
  nullish token (env_GISCUS_BOT_GITHUB_TOKEN w) = Some t ->
  truthy t = true ->
  gh_comments (remote w) (headers_authorization (defaults t)) discussionId
    = Data [{| body := labelPrefix ++ lit " " ++ [MIDDLE_DOT] ++ lit " Persona: "
                       ++ personaName ++ [LF; LF] ++ text |}] ->
  single_line labelPrefix = true ->
  truthy personaName = true ->
  single_line personaName = true ->
  no_outer_space personaName = true ->
  getDiscussionBotComments discussionId labelPrefix token w =
    (Return {[ personaName ]}, log (defaults t) (QueryComments discussionId 100) w).
Proof.
  intros Ht Hne Hc Hlp Hn Hsl Hsp.
  rewrite (getDiscussionBotComments_run _ _ _ _ _ _ Ht Hne Hc).
  pose proof (scan_step_formatted labelPrefix personaName text ∅ Hlp Hn Hsl Hsp) as Hs.
  rewrite persona_prefix_app in Hs.
  change (scan_comments labelPrefix (page 100 ?l))
    with (scan_step (persona_prefix labelPrefix) ∅
            {| body := labelPrefix ++ lit " " ++ [MIDDLE_DOT] ++ lit " Persona: "
                       ++ personaName ++ [LF; LF] ++ text |}).
  rewrite Hs, union_empty_r_L. reflexivity.
Qed.

End Scanner.

(** The comment of the spec's example yields "Curious Reader"; the human
    comment before it yields nothing. *)
Lemma getDiscussionBotComments_prefix_boundary_witness :
  nullish None (env_GISCUS_BOT_GITHUB_TOKEN
                  (Directory.world Directory.blog (Some Directory.pat)))
    = Some Directory.pat
  /\ truthy Directory.pat = true
  /\ gh_comments Directory.blog (headers_authorization (defaults Directory.pat))
       (lit "D_1")
     = Data [{| body := lit "Nice article, thanks." |};
             {| body := Directory.default_prefix ++ lit " " ++ [MIDDLE_DOT]
                        ++ lit " Persona: Curious Reader" ++ [LF; LF]
                        ++ lit "Great post!" |}]
  /\ fst (getDiscussionBotComments (lit "D_1") Directory.default_prefix None
            (Directory.world Directory.blog (Some Directory.pat)))
     = Return {[ lit "Curious Reader" ]}
  /\ exists personas : gset jsstring,
       fst (getDiscussionBotComments (lit "D_1") Directory.default_prefix None
              (Directory.world Directory.blog (Some Directory.pat)))
       = Return personas
       /\ lit "Curious Reader" ∈ personas
       /\ lit "Nice article, thanks." ∉ personas.
Proof.
  split; [reflexivity|]. split; [reflexivity|]. split; [reflexivity|].
  split; [vm_compute; reflexivity|].
  destruct (@getDiscussionBotComments_prefix_boundary _ Directory.github
              (lit "D_1") Directory.default_prefix None
              (Directory.world Directory.blog (Some Directory.pat)) Directory.pat _
              eq_refl eq_refl eq_refl) as (personas & Hrun & Hiff).
  exists personas. split; [rewrite Hrun; reflexivity|]. split.
  - apply Hiff.
    exists {| body := Directory.default_prefix ++ lit " " ++ [MIDDLE_DOT]
                      ++ lit " Persona: Curious Reader" ++ [LF; LF]
                      ++ lit "Great post!" |},
           (lit "Curious Reader" ++ [LF; LF] ++ lit "Great post!").
    split; [apply list_elem_of_further, list_elem_of_here|].
    split; [reflexivity|]. split; [reflexivity | discriminate].
  - intros Hin. apply Hiff in Hin as (c & rest & Hc & _ & Hname & _).
    revert Hname.
    apply (proj1 (Forall_forall
                    (fun c => lit "Nice article, thanks."
                              <> trim (slice (first_elt (split LF (body c)))
                                        (length (Directory.default_prefix ++ lit " "
                                                 ++ [MIDDLE_DOT] ++ lit " Persona: "))))
                    (page 100 [{| body := lit "Nice article, thanks." |};
                               {| body := Directory.default_prefix ++ lit " "
                                          ++ [MIDDLE_DOT]
                                          ++ lit " Persona: Curious Reader" ++ [LF; LF]
                                          ++ lit "Great post!" |}]))); [|exact Hc].
    repeat constructor; discriminate.
Defined.

Lemma getDiscussionBotComments_round_trip_witness :
  nullish None (env_GISCUS_BOT_GITHUB_TOKEN
                  (Directory.world Directory.seeded (Some Directory.pat)))
    = Some Directory.pat
  /\ truthy Directory.pat = true
  /\ gh_comments Directory.seeded (headers_authorization (defaults Directory.pat))
       (lit "D_1")
     = Data [{| body := Directory.default_prefix ++ lit " " ++ [MIDDLE_DOT]
                        ++ lit " Persona: " ++ lit "Curious Reader" ++ [LF; LF]
                        ++ lit "Great post!" |}]
  /\ single_line Directory.default_prefix = true
  /\ truthy (lit "Curious Reader") = true
  /\ single_line (lit "Curious Reader") = true
  /\ no_outer_space (lit "Curious Reader") = true
  /\ getDiscussionBotComments (lit "D_1") Directory.default_prefix None
       (Directory.world Directory.seeded (Some Directory.pat))
     = (Return {[ lit "Curious Reader" ]},
        log (defaults Directory.pat) (QueryComments (lit "D_1") 100)
          (Directory.world Directory.seeded (Some Directory.pat))).
Proof.
  do 7 (split; [reflexivity|]).
  apply (@getDiscussionBotComments_round_trip _ Directory.github
           (lit "D_1") Directory.default_prefix (lit "Curious Reader")
           (lit "Great post!") None
           (Directory.world Directory.seeded (Some Directory.pat)) Directory.pat);
    reflexivity.
Defined.

(** C4 as stated fails for a label prefix of two lines: the comment is in the
    wire format and the persona name is well formed, yet the scan returns the
    empty set, because the name is looked for on the first line of the body,
    which ends inside the label prefix. *)
Lemma round_trip_fails_for_two_line_prefix :
  truthy (lit "Curious Reader") = true
  /\ single_line (lit "Curious Reader") = true
  /\ no_outer_space (lit "Curious Reader") = true
  /\ gh_comments Directory.relabelled (headers_authorization (defaults Directory.pat))
       (lit "D_1")
     = Data [{| body := Directory.two_line_prefix ++ lit " " ++ [MIDDLE_DOT]
                        ++ lit " Persona: " ++ lit "Curious Reader" ++ [LF; LF]
                        ++ lit "Great post!" |}]
  /\ fst (getDiscussionBotComments (lit "D_1") Directory.two_line_prefix None
            (Directory.world Directory.relabelled (Some Directory.pat)))
     = Return ∅
  /\ (∅ : gset jsstring) <> {[ lit "Curious Reader" ]}.
Proof.
  do 4 (split; [reflexivity|]). split; [vm_compute; reflexivity|].
  intros H. apply (f_equal (fun s : gset jsstring => bool_decide (lit "Curious Reader" ∈ s))) in H.
  vm_compute in H. discriminate H.
Qed.

(** ** The Publication Orchestrator *)

Section Orchestrator.

Context {Remote : Type} `{!GitHub Remote}.
Variable toLowerCase : jsstring -> jsstring.

Implicit Types (w : World Remote) (token : option jsstring).

(** The Comment Writer sends at most one request, the mutation for the body
    it was given. *)
Lemma addComment_sent (discussionId body : jsstring) token w c w' :
  addComment discussionId body token w = (c, w') ->
  sent w' = sent w \/
  exists auth,
    sent w' = sent w ++ [{| authorization := auth;
                            operation := MutationAddDiscussionComment discussionId body |}].
Proof.
  unfold addComment. rewrite bind_run.
  destruct (createClient token w) as [[client|e] w0] eqn:Ec;
    pose proof (createClient_world _ _ _ _ Ec) as ->.
  - unfold mutation.
    destruct (gh_addDiscussionComment _ _ _ _) as [[a r']|m]; intros [= _ <-];
      right; eexists; reflexivity.
  - intros [= _ <-]. left; reflexivity.
Qed.

(** The writes of step 3 are comments of personas that are not in the
    scanned set; when the step returns, the personas of the request are split
    between published and skipped by their membership in that set. *)
Lemma publishMissing_spec (discussionId labelPrefix : jsstring)
    (scanned : gset jsstring) (personas : list Draft) token w c w' :
  publishMissing discussionId labelPrefix scanned personas token w = (c, w') ->
  (exists new,
     sent w' = sent w ++ new
     /\ Forall (fun req =>
          exists p, p ∈ personas /\ (personaName p ∉ scanned)
            /\ operation req =
               MutationAddDiscussionComment discussionId
                 (formatComment labelPrefix (personaName p) (text p))) new)
  /\ (forall r, c = Return r ->
        fst r = map personaName (filter (fun p => personaName p ∉ scanned) personas)
        /\ snd r = map personaName (filter (fun p => personaName p ∈ scanned) personas)).
Proof.
  revert w c w'. induction personas as [|p rest IH]; intros w c w'; simpl.
  - intros [= <- <-]. split.
    + exists []. rewrite app_nil_r. split; [reflexivity | constructor].
    + intros r [= <-]. split; reflexivity.
  - destruct (decide (personaName p ∈ scanned)) as [Hin | Hout].
    + rewrite bind_run.
      destruct (publishMissing discussionId labelPrefix scanned rest token w)
        as [[r0|e] w0] eqn:Er; intros [= <- <-];
        destruct (IH _ _ _ Er) as [(new & Hs & Hall) Hr].
      * split.
        -- exists new. split; [exact Hs|].
           eapply Forall_impl; [exact Hall|]. intros req (q & Hq & Hrest).
           exists q. split; [apply list_elem_of_further, Hq | exact Hrest].
        -- intros r [= <-]. destruct (Hr r0 eq_refl) as [Hp Hk]. simpl.
           rewrite filter_cons_False by (intros Hn; apply Hn, Hin).
           rewrite filter_cons_True by exact Hin.
           split; [exact Hp | simpl; f_equal; exact Hk].
      * split; [|intros r [=]].
        exists new. split; [exact Hs|].
        eapply Forall_impl; [exact Hall|]. intros req (q & Hq & Hrest).
        exists q. split; [apply list_elem_of_further, Hq | exact Hrest].
    + rewrite bind_run.
      destruct (addComment discussionId
                  (formatComment labelPrefix (personaName p) (text p)) token w)
        as [[cid|e] wa] eqn:Ea.
      2:{ intros [= <- <-]. split; [|intros r [=]].
          destruct (addComment_sent _ _ _ _ _ _ Ea) as [Hs | [auth Hs]].
          - exists []. rewrite app_nil_r. split; [exact Hs | constructor].
          - eexists. split; [exact Hs|]. constructor; [|constructor].
            exists p. split; [apply list_elem_of_here|]. split; [exact Hout | reflexivity]. }
      assert (Hwa : exists one,
                 sent wa = sent w ++ one
                 /\ Forall (fun req =>
                      exists q, q ∈ p :: rest /\ (personaName q ∉ scanned)
                        /\ operation req =
                           MutationAddDiscussionComment discussionId
                             (formatComment labelPrefix (personaName q) (text q))) one).
      { destruct (addComment_sent _ _ _ _ _ _ Ea) as [Hs | [auth Hs]].
        - exists []. rewrite app_nil_r. split; [exact Hs | constructor].
        - eexists. split; [exact Hs|]. constructor; [|constructor].
          exists p. split; [apply list_elem_of_here|]. split; [exact Hout | reflexivity]. }
      destruct Hwa as (one & Hone & Hall1).
      rewrite bind_run.
      destruct (publishMissing discussionId labelPrefix scanned rest token wa)
        as [[r0|e] w0] eqn:Er; intros [= <- <-];
        destruct (IH _ _ _ Er) as [(new & Hs & Hall) Hr].
      * split.
        -- exists (one ++ new). split; [rewrite Hs, Hone, app_assoc; reflexivity|].
           apply Forall_app. split; [exact Hall1|].
           eapply Forall_impl; [exact Hall|]. intros req (q & Hq & Hrest).
           exists q. split; [apply list_elem_of_further, Hq | exact Hrest].
        -- intros r [= <-]. destruct (Hr r0 eq_refl) as [Hp Hk]. simpl.
           rewrite filter_cons_True by exact Hout.
           rewrite filter_cons_False by (intros Hn; apply Hout, Hn).
           split; [simpl; f_equal; exact Hp | exact Hk].
      * split; [|intros r [=]].
        exists (one ++ new). split; [rewrite Hs, Hone, app_assoc; reflexivity|].
        apply Forall_app. split; [exact Hall1|].
        eapply Forall_impl; [exact Hall|]. intros req (q & Hq & Hrest).
        exists q. split; [apply list_elem_of_further, Hq | exact Hrest].
Qed.

(** A comment in the wire format on the scanned page puts its persona in the
    scanned set, for a single-line label prefix and a well-formed name. *)
Lemma scan_comments_formatted (labelPrefix personaName text0 : jsstring)
    (nodes : list CommentNode) :
  {| body := formatComment labelPrefix personaName text0 |} ∈ nodes ->
  single_line labelPrefix = true ->
  truthy personaName = true ->
  single_line personaName = true ->
  no_outer_space personaName = true ->
  personaName ∈ scan_comments labelPrefix nodes.
Proof.
  intros Hin Hlp Hn Hsl Hsp. unfold scan_comments. apply scan_foldl_elem.
  right. eexists. split; [exact Hin|].
  pose proof (scan_step_formatted labelPrefix personaName text0 ∅ Hlp Hn Hsl Hsp) as Hs.
  assert (He : personaName ∈ scan_step (persona_prefix labelPrefix) ∅
                 {| body := formatComment labelPrefix personaName text0 |}).
  { unfold formatComment. rewrite Hs.
    apply elem_of_union. left. apply elem_of_singleton. reflexivity. }
  apply scan_step_elem in He as [He | He]; [|exact He].
  exfalso. exact (not_elem_of_empty _ He).
Qed.

(** C5, as the orchestrator of the spec and the scanner have it (no duplicate
    persona comments).  Let the discussion of the post be located or created,
    and let the requested page of its comments hold a comment in the wire
    format for persona [P], where the label prefix has no line feed and [P]
    is non-empty, has no line feed and no white space at either end.  Then
    the scanner returns a set that contains [P]; every request the
    publication sends after the scan is the comment of a requested persona
    other than [P]; and when the publication returns, [P] is not in
    [published] and, if it was requested, it is in [skipped]. *)
Theorem findOrCreateAndPublish_no_duplicate
    (owner repo categoryName title body labelPrefix : jsstring)
    (personas : list Draft) token w d w1 t nodes (P text0 : jsstring) :
  findOrCreateDiscussion toLowerCase owner repo categoryName title body token w
    = (Return d, w1) ->
  nullish token (env_GISCUS_BOT_GITHUB_TOKEN w1) = Some t ->
  truthy t = true ->
  gh_comments (remote w1) (headers_authorization (defaults t)) (id d) = Data nodes ->
  {| body := formatComment labelPrefix P text0 |} ∈ page 100 nodes ->
  single_line labelPrefix = true ->
  truthy P = true ->
  single_line P = true ->
  no_outer_space P = true ->
  exists (scanned : gset jsstring) c w3 new,
    getDiscussionBotComments (id d) labelPrefix token w1
      = (Return scanned, log (defaults t) (QueryComments (id d) 100) w1)
    /\ P ∈ scanned
    /\ findOrCreateAndPublish toLowerCase owner repo categoryName title body
         labelPrefix personas token w = (c, w3)
    /\ sent w3 = sent (log (defaults t) (QueryComments (id d) 100) w1) ++ new
    /\ Forall (fun req =>
         exists p, p ∈ personas /\ personaName p <> P
           /\ operation req =
              MutationAddDiscussionComment (id d)
                (formatComment labelPrefix (personaName p) (text p))) new
    /\ forall r, c = Return r ->
         discussionId r = id d
         /\ (P ∉ published r)
         /\ ((exists p, p ∈ personas /\ personaName p = P) -> P ∈ skipped r).
Proof.
  intros Hd Ht Hne Hc Hin Hlp Hn Hsl Hsp.
  pose proof (getDiscussionBotComments_run (id d) labelPrefix token w1 t nodes
                Ht Hne Hc) as Hscan.
  pose proof (scan_comments_formatted labelPrefix P text0 (page 100 nodes)
                Hin Hlp Hn Hsl Hsp) as HP.
  set (scanned := scan_comments labelPrefix (page 100 nodes)) in *.
  set (w2 := log (defaults t) (QueryComments (id d) 100) w1) in *.
  destruct (publishMissing (id d) labelPrefix scanned personas token w2)
    as [c0 w3] eqn:Ep.
  destruct (publishMissing_spec _ _ _ _ _ _ _ _ Ep) as [(new & Hs & Hall) Hr].
  assert (Hnew : Forall (fun req =>
            exists p, p ∈ personas /\ personaName p <> P
              /\ operation req =
                 MutationAddDiscussionComment (id d)
                   (formatComment labelPrefix (personaName p) (text p))) new).
  { eapply Forall_impl; [exact Hall|]. intros req (p & Hp & Hout & Hop).
    exists p. split; [exact Hp|]. split; [|exact Hop].
    intros Heq. apply Hout. cbv beta. rewrite Heq. exact HP. }
  assert (Hrun : findOrCreateAndPublish toLowerCase owner repo categoryName title
                   body labelPrefix personas token w
                 = (match c0 with
                    | Return r => Return {| discussionId := id d; discussionUrl := url d;
                                            published := fst r; skipped := snd r |}
                    | Throw e => Throw e
                    end, w3)).
  { unfold findOrCreateAndPublish.
    rewrite bind_run, Hd, bind_run, Hscan, bind_run, Ep.
    destruct c0; reflexivity. }
  exists scanned, (match c0 with
                   | Return r => Return {| discussionId := id d; discussionUrl := url d;
                                           published := fst r; skipped := snd r |}
                   | Throw e => Throw e
                   end), w3, new.
  split; [exact Hscan|]. split; [exact HP|]. split; [exact Hrun|].
  split; [exact Hs|]. split; [exact Hnew|].
  intros r Hret. destruct c0 as [r0|e]; [|discriminate].
  injection Hret as <-. simpl.
  destruct (Hr r0 eq_refl) as [Hpub Hskip].
  split; [reflexivity|]. split.
  - rewrite Hpub. intros Hmem.
    apply list_elem_of_fmap in Hmem as (p & Hname & Hp).
    apply list_elem_of_filter in Hp as [Hout _]. apply Hout.
    cbv beta. rewrite <- Hname. exact HP.
  - intros (p & Hp & Hname). rewrite Hskip.
    apply list_elem_of_fmap. exists p. split; [symmetry; exact Hname|].
    apply list_elem_of_filter. split; [cbv beta; rewrite Hname; exact HP | exact Hp].
Qed.

End Orchestrator.

(** On the blog, "Curious Reader" has already commented on "My Post": a run
    with the two drafts skips it and publishes "Devil's Advocate" only. *)
Lemma findOrCreateAndPublish_no_duplicate_witness :
  findOrCreateDiscussion ascii_toLowerCase Directory.owner Directory.repo
    (lit "General") (lit "My Post") (lit "https://blog/my-post") None
    (Directory.world Directory.blog (Some Directory.pat))
  = (Return {| id := lit "D_1"; url := lit "https://github.com/o/r/discussions/D_1" |},
     log (defaults Directory.pat)
       (QuerySearch (searchQuery_of Directory.owner Directory.repo (lit "My Post")) 5)
       (Directory.world Directory.blog (Some Directory.pat)))
  /\ {| body := formatComment Directory.default_prefix (lit "Curious Reader")
                  (lit "Great post!") |}
       ∈ page 100 [{| body := lit "Nice article, thanks." |};
                   {| body := formatComment Directory.default_prefix
                                (lit "Curious Reader") (lit "Great post!") |}]
  /\ single_line Directory.default_prefix = true
  /\ truthy (lit "Curious Reader") = true
  /\ single_line (lit "Curious Reader") = true
  /\ no_outer_space (lit "Curious Reader") = true
  /\ fst (findOrCreateAndPublish ascii_toLowerCase Directory.owner Directory.repo
            (lit "General") (lit "My Post") (lit "https://blog/my-post")
            Directory.default_prefix Directory.drafts None
            (Directory.world Directory.blog (Some Directory.pat)))
     = Return {| discussionId := lit "D_1";
                 discussionUrl := lit "https://github.com/o/r/discussions/D_1";
                 published := [lit "Devil's Advocate"];
                 skipped := [lit "Curious Reader"] |}
  /\ (lit "Curious Reader" ∉ [lit "Devil's Advocate"])
  /\ lit "Curious Reader" ∈ [lit "Curious Reader"].
Proof.
  assert (Hin : {| body := formatComment Directory.default_prefix
                             (lit "Curious Reader") (lit "Great post!") |}
                  ∈ page 100 [{| body := lit "Nice article, thanks." |};
                              {| body := formatComment Directory.default_prefix
                                           (lit "Curious Reader")
                                           (lit "Great post!") |}])
    by (apply list_elem_of_further, list_elem_of_here).
  assert (Hrun : fst (findOrCreateAndPublish ascii_toLowerCase Directory.owner
                        Directory.repo (lit "General") (lit "My Post")
                        (lit "https://blog/my-post") Directory.default_prefix
                        Directory.drafts None
                        (Directory.world Directory.blog (Some Directory.pat)))
                 = Return {| discussionId := lit "D_1";
                             discussionUrl := lit "https://github.com/o/r/discussions/D_1";
                             published := [lit "Devil's Advocate"];
                             skipped := [lit "Curious Reader"] |})
    by (vm_compute; reflexivity).
  split; [reflexivity|]. split; [exact Hin|]. do 4 (split; [reflexivity|]).
  split; [exact Hrun|].
  destruct (@findOrCreateAndPublish_no_duplicate _ Directory.github ascii_toLowerCase
              Directory.owner Directory.repo (lit "General") (lit "My Post")
              (lit "https://blog/my-post") Directory.default_prefix Directory.drafts
              None (Directory.world Directory.blog (Some Directory.pat)) _ _
              Directory.pat _ (lit "Curious Reader") (lit "Great post!")
              eq_refl eq_refl eq_refl eq_refl Hin eq_refl eq_refl eq_refl eq_refl)
    as (scanned & c & w3 & new & _ & _ & Hpub & _ & _ & Hret).
  rewrite Hpub in Hrun. simpl in Hrun.
  destruct (Hret _ Hrun) as (_ & Hnot & Hskip).
  split; [exact Hnot|]. apply Hskip.
  eexists. split; [apply list_elem_of_here | reflexivity].
Defined.

(** C5 as stated fails for a persona whose configured name ends with a
    space: its comment is on the page, in the wire format, but the scanner
    records the trimmed name, so the persona is not recognised; it is
    published again and a second comment is written for it. *)
Lemma padded_persona_is_published_again :
  {| body := formatComment Directory.default_prefix (lit "Curious Reader ")
               (lit "Great post!") |}
    ∈ page 100 [{| body := formatComment Directory.default_prefix
                             (lit "Curious Reader ") (lit "Great post!") |}]
  /\ gh_comments Directory.padded (headers_authorization (defaults Directory.pat))
       (lit "D_1")
     = Data [{| body := formatComment Directory.default_prefix
                          (lit "Curious Reader ") (lit "Great post!") |}]
  /\ fst (getDiscussionBotComments (lit "D_1") Directory.default_prefix None
            (Directory.world Directory.padded (Some Directory.pat)))
     = Return {[ lit "Curious Reader" ]}
  /\ fst (findOrCreateAndPublish ascii_toLowerCase Directory.owner Directory.repo
            (lit "General") (lit "My Post") (lit "https://blog/my-post")
            Directory.default_prefix
            [{| personaName := lit "Curious Reader "; text := lit "Once more." |}]
            None (Directory.world Directory.padded (Some Directory.pat)))
     = Return {| discussionId := lit "D_1";
                 discussionUrl := lit "https://github.com/o/r/discussions/D_1";
                 published := [lit "Curious Reader "];
                 skipped := [] |}
  /\ map operation
       (sent (snd (findOrCreateAndPublish ascii_toLowerCase Directory.owner
                     Directory.repo (lit "General") (lit "My Post")
                     (lit "https://blog/my-post") Directory.default_prefix
                     [{| personaName := lit "Curious Reader ";
                         text := lit "Once more." |}]
                     None (Directory.world Directory.padded (Some Directory.pat)))))
     = [QuerySearch (searchQuery_of Directory.owner Directory.repo (lit "My Post")) 5;
        QueryComments (lit "D_1") 100;
        MutationAddDiscussionComment (lit "D_1")
          (formatComment Directory.default_prefix (lit "Curious Reader ")
             (lit "Once more."))].
Proof.
  split; [apply list_elem_of_here|]. split; [reflexivity|].
  repeat split; vm_compute; reflexivity.
Qed.

(** ** The requests of the publisher *)

Section Protocol.

Context {Remote : Type} `{!GitHub Remote}.
Variable toLowerCase : jsstring -> jsstring.

Implicit Types (w : World Remote) (token : option jsstring).

(** Each operation, with a usable token, as one equation. *)
Lemma findDiscussion_eq owner repo title token w t :
  nullish token (env_GISCUS_BOT_GITHUB_TOKEN w) = Some t ->
  truthy t = true ->
  findDiscussion owner repo title token w =
    match gh_search (remote w) (headers_authorization (defaults t))
            (searchQuery_of owner repo title) with
    | Data nodes =>
        (Return (match find (fun d => strict_eq (d_title d) title) (page 5 nodes) with
                 | Some m => Some {| id := d_id m; url := d_url m |}
                 | None => None
                 end),
         log (defaults t) (QuerySearch (searchQuery_of owner repo title) 5) w)
    | Rejected m =>
        (Throw (RequestError m),
         log (defaults t) (QuerySearch (searchQuery_of owner repo title) 5) w)
    end.
Proof.
  intros Ht Hne. unfold findDiscussion.
  rewrite bind_run, (createClient_ok _ _ _ Ht Hne), bind_run. unfold query.
  destruct (gh_search _ _ _); reflexivity.
Qed.

Lemma getRepoInfo_eq owner repo categoryName token w t :
  nullish token (env_GISCUS_BOT_GITHUB_TOKEN w) = Some t ->
  truthy t = true ->
  getRepoInfo toLowerCase owner repo categoryName token w =
    match gh_repository (remote w) (headers_authorization (defaults t)) owner repo with
    | Data rd =>
        match find (fun c => strict_eq (toLowerCase (cat_name c))
                               (toLowerCase categoryName))
                   (page 25 (discussionCategories rd)) with
        | None =>
            (Throw (Error (category_not_found categoryName
                             (join (lit ", ")
                                (map cat_name (page 25 (discussionCategories rd)))))),
             log (defaults t) (QueryRepository owner repo 25) w)
        | Some c =>
            (Return {| repoId := repository_id rd; categoryId := cat_id c |},
             log (defaults t) (QueryRepository owner repo 25) w)
        end
    | Rejected m =>
        (Throw (RequestError m), log (defaults t) (QueryRepository owner repo 25) w)
    end.
Proof.
  intros Ht Hne.
  destruct (gh_repository (remote w) (headers_authorization (defaults t)) owner repo)
    as [rd|m] eqn:Hr.
  - apply getRepoInfo_run; assumption.
  - unfold getRepoInfo.
    rewrite bind_run, (createClient_ok _ _ _ Ht Hne), bind_run. unfold query.
    rewrite Hr. reflexivity.
Qed.

Lemma getDiscussionBotComments_eq (discussionId labelPrefix : jsstring) token w t :
  nullish token (env_GISCUS_BOT_GITHUB_TOKEN w) = Some t ->
  truthy t = true ->
  getDiscussionBotComments discussionId labelPrefix token w =
    match gh_comments (remote w) (headers_authorization (defaults t)) discussionId with
    | Data nodes =>
        (Return (scan_comments labelPrefix (page 100 nodes)),
         log (defaults t) (QueryComments discussionId 100) w)
    | Rejected m =>
        (Throw (RequestError m), log (defaults t) (QueryComments discussionId 100) w)
    end.
Proof.
  intros Ht Hne. unfold getDiscussionBotComments.
  rewrite bind_run, (createClient_ok _ _ _ Ht Hne), bind_run. unfold query.
  destruct (gh_comments _ _ _); reflexivity.
Qed.

Lemma createDiscussion_eq (repoId categoryId title body : jsstring) token w t :
  nullish token (env_GISCUS_BOT_GITHUB_TOKEN w) = Some t ->
  truthy t = true ->
  createDiscussion repoId categoryId title body token w =
    match gh_createDiscussion (remote w) (headers_authorization (defaults t))
            repoId categoryId title body with
    | Data (d, r') =>
        (Return d,
         with_remote r'
           (log (defaults t)
              (MutationCreateDiscussion repoId categoryId title body) w))
    | Rejected m =>
        (Throw (RequestError m),
         log (defaults t) (MutationCreateDiscussion repoId categoryId title body) w)
    end.
Proof.
  intros Ht Hne. unfold createDiscussion.
  rewrite bind_run, (createClient_ok _ _ _ Ht Hne). unfold mutation.
  destruct (gh_createDiscussion _ _ _ _ _ _) as [[d r']|m]; reflexivity.
Qed.

Lemma addComment_eq (discussionId body : jsstring) token w t :
  nullish token (env_GISCUS_BOT_GITHUB_TOKEN w) = Some t ->
  truthy t = true ->
  addComment discussionId body token w =
    match gh_addDiscussionComment (remote w) (headers_authorization (defaults t))
            discussionId body with
    | Data (c, r') =>
        (Return c,
         with_remote r'
           (log (defaults t) (MutationAddDiscussionComment discussionId body) w))
    | Rejected m =>
        (Throw (RequestError m),
         log (defaults t) (MutationAddDiscussionComment discussionId body) w)
    end.
Proof.
  intros Ht Hne. unfold addComment.
  rewrite bind_run, (createClient_ok _ _ _ Ht Hne). unfold mutation.
  destruct (gh_addDiscussionComment _ _ _ _) as [[c r']|m]; reflexivity.
Qed.

(** The token the client is built from, if any. *)
Lemma token_cases token w :
  (exists t, nullish token (env_GISCUS_BOT_GITHUB_TOKEN w) = Some t /\ truthy t = true)
  \/ createClient token w = (Throw (Error token_required), w).
Proof.
  destruct (nullish token (env_GISCUS_BOT_GITHUB_TOKEN w)) as [t|] eqn:Ht.
  - destruct (truthy t) eqn:Hne; [left; eauto|].
    right. apply createClient_missing. rewrite Ht. exact Hne.
  - right. apply createClient_missing. rewrite Ht. exact I.
Qed.

(** X1 (reads do not write).  In every outcome, the three reading
    operations (category resolution, title search, comment scan) leave the
    remote state and the environment as they were, and send at most one
    request: their own query, with the page size written in it. *)
Theorem queries_leave_remote_unchanged token w :
  (forall owner repo categoryName c w',
     getRepoInfo toLowerCase owner repo categoryName token w = (c, w') ->
     remote w' = remote w
     /\ env_GISCUS_BOT_GITHUB_TOKEN w' = env_GISCUS_BOT_GITHUB_TOKEN w
     /\ (sent w' = sent w
         \/ exists auth,
              sent w' = sent w ++ [{| authorization := auth;
                                      operation := QueryRepository owner repo 25 |}]))
  /\ (forall owner repo title c w',
        findDiscussion owner repo title token w = (c, w') ->
        remote w' = remote w
        /\ env_GISCUS_BOT_GITHUB_TOKEN w' = env_GISCUS_BOT_GITHUB_TOKEN w
        /\ (sent w' = sent w
            \/ exists auth,
                 sent w' = sent w
                   ++ [{| authorization := auth;
                          operation := QuerySearch (searchQuery_of owner repo title) 5 |}]))
  /\ (forall (discussionId labelPrefix : jsstring) c w',
        getDiscussionBotComments discussionId labelPrefix token w = (c, w') ->
        remote w' = remote w
        /\ env_GISCUS_BOT_GITHUB_TOKEN w' = env_GISCUS_BOT_GITHUB_TOKEN w
        /\ (sent w' = sent w
            \/ exists auth,
                 sent w' = sent w ++ [{| authorization := auth;
                                         operation := QueryComments discussionId 100 |}])).
Proof.
  destruct (token_cases token w) as [(t & Ht & Hne) | Hno].
  - split; [|split].
    + intros owner repo categoryName c w'.
      rewrite (getRepoInfo_eq _ _ _ _ _ _ Ht Hne).
      destruct (gh_repository _ _ _ _) as [rd|m]; [destruct (find _ _)|];
        intros [= <- <-]; (split; [reflexivity|]); (split; [reflexivity|]);
        right; eexists; reflexivity.
    + intros owner repo title c w'.
      rewrite (findDiscussion_eq _ _ _ _ _ _ Ht Hne).
      destruct (gh_search _ _ _) as [nodes|m];
        intros [= <- <-]; (split; [reflexivity|]); (split; [reflexivity|]);
        right; eexists; reflexivity.
    + intros discussionId labelPrefix c w'.
      rewrite (getDiscussionBotComments_eq _ _ _ _ _ Ht Hne).
      destruct (gh_comments _ _ _) as [nodes|m];
        intros [= <- <-]; (split; [reflexivity|]); (split; [reflexivity|]);
        right; eexists; reflexivity.
  - unfold getRepoInfo, findDiscussion, getDiscussionBotComments.
    split; [|split]; intros; rewrite bind_run, Hno in *;
      match goal with H : (_, _) = (_, _) |- _ => injection H as <- <- end;
      auto.
Qed.

(** Every way [findOrCreateDiscussion] can go, with the world it ends in. *)
Lemma findOrCreateDiscussion_trace
    (owner repo categoryName title body : jsstring) token w c w' :
  findOrCreateDiscussion toLowerCase owner repo categoryName title body token w
    = (c, w') ->
  (c = Throw (Error token_required) /\ w' = w)
  \/ exists t,
       nullish token (env_GISCUS_BOT_GITHUB_TOKEN w) = Some t /\ truthy t = true
       /\ let ws := log (defaults t) (QuerySearch (searchQuery_of owner repo title) 5) w in
          let wr := log (defaults t) (QueryRepository owner repo 25) ws in
          (w' = ws /\ ((exists d, c = Return d) \/ exists m, c = Throw (RequestError m)))
          \/ (w' = wr /\ exists e, c = Throw e)
          \/ exists rid cid,
               let wc := log (defaults t)
                           (MutationCreateDiscussion rid cid title body) wr in
               (w' = wc /\ exists m, c = Throw (RequestError m))
               \/ exists d r',
                    c = Return d
                    /\ gh_createDiscussion (remote w) (headers_authorization (defaults t))
                         rid cid title body = Data (d, r')
                    /\ w' = with_remote r' wc.
Proof.
  unfold findOrCreateDiscussion. rewrite bind_run.
  destruct (token_cases token w) as [(t & Ht & Hne) | Hno].
  2:{ unfold findDiscussion. rewrite bind_run, Hno. intros [= <- <-]. left; auto. }
  intros Hrun. right. exists t. split; [exact Ht|]. split; [exact Hne|]. cbv zeta.
  rewrite (findDiscussion_eq _ _ _ _ _ _ Ht Hne) in Hrun.
  destruct (gh_search _ _ _) as [nodes|m].
  2:{ injection Hrun as <- <-. left. split; [reflexivity|]. right; eauto. }
  destruct (find _ (page 5 nodes)) as [n|].
  { injection Hrun as <- <-. left. split; [reflexivity|]. left; eauto. }
  rewrite bind_run in Hrun.
  rewrite (getRepoInfo_eq owner repo categoryName token
             (log (defaults t) (QuerySearch (searchQuery_of owner repo title) 5) w)
             t Ht Hne) in Hrun.
  simpl remote in Hrun.
  destruct (gh_repository _ _ _ _) as [rd|m].
  2:{ injection Hrun as <- <-. right; left. split; [reflexivity|]. eauto. }
  destruct (find _ (page 25 _)) as [cat|].
  2:{ injection Hrun as <- <-. right; left. split; [reflexivity|]. eauto. }
  rewrite (createDiscussion_eq _ _ _ _ token
             (log (defaults t) (QueryRepository owner repo 25)
                (log (defaults t) (QuerySearch (searchQuery_of owner repo title) 5) w))
             t Ht Hne) in Hrun.
  simpl remote in Hrun. simpl repoId in Hrun. simpl categoryId in Hrun.
  right; right. exists (repository_id rd), (cat_id cat).
  destruct (gh_createDiscussion _ _ _ _ _ _) as [[d r']|m] eqn:Hc.
  - injection Hrun as <- <-. right. exists d, r'. auto.
  - injection Hrun as <- <-. left. split; [reflexivity|]. eauto.
Qed.


(** X3 (one credential for every request).  Every request an operation
    sends carries the header [authorization: token <t>], where [t] is the
    token passed, or the environment variable when none is passed: this
    holds for the whole of [findOrCreateDiscussion], for [addComment] and for
    [getDiscussionBotComments]. *)
Theorem requests_carry_the_token token w t :
  nullish token (env_GISCUS_BOT_GITHUB_TOKEN w) = Some t ->
  (forall (owner repo categoryName title body : jsstring) c w',
     findOrCreateDiscussion toLowerCase owner repo categoryName title body token w
       = (c, w') ->
     exists new, sent w' = sent w ++ new
       /\ Forall (fun r => authorization r = lit "token " ++ t) new)
  /\ (forall (discussionId body : jsstring) c w',
        addComment discussionId body token w = (c, w') ->
        exists new, sent w' = sent w ++ new
          /\ Forall (fun r => authorization r = lit "token " ++ t) new)
  /\ (forall (discussionId labelPrefix : jsstring) c w',
        getDiscussionBotComments discussionId labelPrefix token w = (c, w') ->
        exists new, sent w' = sent w ++ new
          /\ Forall (fun r => authorization r = lit "token " ++ t) new).
Proof.
  intros Ht. split; [|split].
  - intros owner repo categoryName title body c w' Hrun.
    destruct (findOrCreateDiscussion_trace _ _ _ _ _ _ _ _ _ Hrun)
      as [[-> ->] | (t' & Ht' & Hne & Hcases)].
    { exists []. rewrite app_nil_r. split; [reflexivity | constructor]. }
    assert (t' = t) as -> by congruence. cbv zeta in Hcases.
    destruct Hcases
      as [[-> _] | [[-> _] | (rid & cid & [[-> _] | (d & r' & _ & _ & ->)])]];
      eexists; (split; [simpl; rewrite <- ?app_assoc; reflexivity|]);
      repeat constructor.
  - intros discussionId body c w'.
    destruct (truthy t) eqn:Hne.
    + rewrite (addComment_eq _ _ _ _ _ Ht Hne).
      destruct (gh_addDiscussionComment _ _ _ _) as [[a r']|m]; intros [= <- <-];
        eexists; (split; [reflexivity|]); repeat constructor.
    + unfold addComment. rewrite bind_run, createClient_missing by (rewrite Ht; exact Hne).
      intros [= <- <-]. exists []. rewrite app_nil_r. split; [reflexivity | constructor].
  - intros discussionId labelPrefix c w'.
    destruct (truthy t) eqn:Hne.
    + rewrite (getDiscussionBotComments_eq _ _ _ _ _ Ht Hne).
      destruct (gh_comments _ _ _) as [nodes|m]; intros [= <- <-];
        eexists; (split; [reflexivity|]); repeat constructor.
    + unfold getDiscussionBotComments.
      rewrite bind_run, createClient_missing by (rewrite Ht; exact Hne).
      intros [= <- <-]. exists []. rewrite app_nil_r. split; [reflexivity | constructor].
Qed.

(** X4 (a missing category creates nothing).  With a usable token, when the
    search finds no discussion with the title and no category of the reply
    has the requested name, [findOrCreateDiscussion] throws the
    category-not-found [Error] after the search and the category query: no
    mutation is sent and the remote state is as it was. *)
Theorem findOrCreateDiscussion_category_miss
    (owner repo categoryName title body : jsstring) token w t nodes rd :
  nullish token (env_GISCUS_BOT_GITHUB_TOKEN w) = Some t ->
  truthy t = true ->
  gh_search (remote w) (headers_authorization (defaults t))
    (searchQuery_of owner repo title) = Data nodes ->
  (forall n, n ∈ page 5 nodes -> d_title n <> title) ->
  gh_repository (remote w) (headers_authorization (defaults t)) owner repo = Data rd ->
  (forall c, c ∈ page 25 (discussionCategories rd) ->
     toLowerCase (cat_name c) <> toLowerCase categoryName) ->
  exists w',
    findOrCreateDiscussion toLowerCase owner repo categoryName title body token w
      = (Throw (Error (category_not_found categoryName
                         (join (lit ", ")
                            (map cat_name (page 25 (discussionCategories rd)))))),
         w')
    /\ remote w' = remote w
    /\ map operation (sent w')
       = map operation (sent w)
         ++ [QuerySearch (searchQuery_of owner repo title) 5;
             QueryRepository owner repo 25].
Proof.
  intros Ht Hne Hs Hmiss Hr Hcat. eexists. split.
  - unfold findOrCreateDiscussion.
    rewrite bind_run, (findDiscussion_none _ _ _ _ _ _ _ Ht Hne Hs Hmiss), bind_run.
    rewrite (getRepoInfo_run toLowerCase owner repo categoryName token
               (log (defaults t) (QuerySearch (searchQuery_of owner repo title) 5) w)
               t rd Ht Hne Hr).
    assert (Ef : find (fun c => strict_eq (toLowerCase (cat_name c))
                                  (toLowerCase categoryName))
                   (page 25 (discussionCategories rd)) = None).
    { apply find_none_iff. intros c Hc. apply strict_eq_false, Hcat, Hc. }
    rewrite Ef. reflexivity.
  - split; [reflexivity|]. simpl. rewrite !map_app, <- app_assoc. reflexivity.
Qed.


End Protocol.

(** ** More on the scanner *)

(** A separator inside [a] ends the first piece inside [a]. *)
Lemma first_elt_split_short (sep : N) (a r : jsstring) :
  sep ∈ a -> (length (first_elt (split sep (a ++ r))) < length a)%nat.
Proof.
  induction a as [|c a IH]; intros Hin; simpl.
  - inversion Hin.
  - destruct (N.eqb_spec c sep) as [->|Hc]; simpl; [lia|].
    assert (Ha : sep ∈ a) by (inversion Hin; subst; [congruence | assumption]).
    specialize (IH Ha).
    destruct (split sep (a ++ r)) as [|x xs]; simpl in *; lia.
Qed.

(** The first piece of a split holds no separator. *)
Lemma first_elt_split_free (sep : N) (s : jsstring) :
  sep ∉ first_elt (split sep s).
Proof.
  induction s as [|c r IH]; simpl.
  - intros H; inversion H.
  - destruct (N.eqb_spec c sep) as [->|Hc]; simpl.
    + intros H; inversion H.
    + destruct (split sep r) as [|x xs]; simpl in *.
      * intros H. inversion H as [|? ? ? H']; subst; [congruence | inversion H'].
      * intros H. inversion H; subst; [congruence | auto].
Qed.

(** [trimStart] drops a run of white space and stops at the first other
    code unit. *)
Lemma trimStart_split (s : jsstring) :
  exists pre, s = pre ++ trimStart s /\ forallb isWhiteSpace pre = true.
Proof.
  induction s as [|c s (pre & Hs & Hpre)]; simpl.
  - exists []. auto.
  - destruct (isWhiteSpace c) eqn:Hc.
    + exists (c :: pre). simpl. rewrite Hc, Hpre. split; [congruence | reflexivity].
    + exists []. auto.
Qed.

Lemma trimStart_head (s : jsstring) (c : N) :
  head (trimStart s) = Some c -> isWhiteSpace c = false.
Proof.
  induction s as [|x s IH]; simpl; [discriminate|].
  destruct (isWhiteSpace x) eqn:Hx; [exact IH|].
  simpl. intros [= <-]. exact Hx.
Qed.

Lemma single_line_rev (s : jsstring) : single_line (rev s) = single_line s.
Proof.
  unfold single_line. induction s as [|x s IH]; simpl; [reflexivity|].
  rewrite forallb_app, IH. simpl. rewrite andb_true_r. apply andb_comm.
Qed.

Lemma single_line_trimStart (s : jsstring) :
  single_line s = true -> single_line (trimStart s) = true.
Proof.
  destruct (trimStart_split s) as (pre & Hs & _).
  intros H. rewrite Hs, single_line_app in H.
  apply andb_true_iff in H as [_ H]. exact H.
Qed.

Lemma single_line_trim (s : jsstring) :
  single_line s = true -> single_line (trim s) = true.
Proof.
  intros H. unfold trim, trimEnd.
  rewrite single_line_rev. apply single_line_trimStart.
  rewrite single_line_rev. apply single_line_trimStart, H.
Qed.

Lemma single_line_drop (n : nat) (s : jsstring) :
  single_line s = true -> single_line (drop n s) = true.
Proof.
  intros H. rewrite <- (take_drop n s), single_line_app in H.
  apply andb_true_iff in H as [_ H]. exact H.
Qed.

Lemma last_rev {A} (l : list A) : last (rev l) = head l.
Proof. destruct l as [|x l]; [reflexivity|]. simpl. apply last_snoc. Qed.

(** What [trim] returns neither starts nor ends with white space. *)
Lemma no_outer_space_of_trim (s : jsstring) : no_outer_space (trim s) = true.
Proof.
  unfold trim, trimEnd, no_outer_space.
  set (a := trimStart s). set (b := trimStart (rev a)).
  destruct (head (rev b)) as [h|] eqn:Hh; [|reflexivity].
  destruct (last (rev b)) as [z|] eqn:Hz; [|reflexivity].
  rewrite last_rev in Hz. apply trimStart_head in Hz. rewrite Hz.
  destruct (trimStart_split (rev a)) as (pre & Hs & _). fold b in Hs.
  apply (f_equal (@rev N)) in Hs. rewrite rev_involutive, rev_app_distr in Hs.
  assert (Ha : head a = Some h).
  { rewrite Hs. destruct (rev b); [discriminate | exact Hh]. }
  apply trimStart_head in Ha. rewrite Ha. reflexivity.
Qed.

(** With a line feed in the header, no comment ever contributes. *)
Lemma scan_step_two_lines (prefix : jsstring) (acc : gset jsstring) (c : CommentNode) :
  single_line prefix = false -> scan_step prefix acc c = acc.
Proof.
  intros Hml. unfold scan_step.
  destruct (startsWith (body c) prefix) eqn:Es; [|reflexivity].
  apply startsWith_spec in Es as [rest Hb]. cbv zeta.
  assert (Hin : LF ∈ prefix).
  { destruct (decide (LF ∈ prefix)) as [Hin|Hn]; [exact Hin|].
    apply single_line_spec in Hn. congruence. }
  pose proof (first_elt_split_short LF prefix rest Hin) as Hlen.
  rewrite <- Hb in Hlen. unfold slice.
  rewrite drop_ge by lia. reflexivity.
Qed.

Section ScannerFacts.

Context {Remote : Type} `{!GitHub Remote}.

Implicit Types (w : World Remote) (token : option jsstring).

(** X6 (a label prefix of several lines defeats the scan).  When the label
    prefix contains a line feed, the scanner returns the empty set whatever
    the comments of the discussion are: the name is read off the first line of
    a body, which then ends inside the header. *)
Theorem getDiscussionBotComments_two_line_prefix
    (discussionId labelPrefix : jsstring) token w t nodes :
  nullish token (env_GISCUS_BOT_GITHUB_TOKEN w) = Some t ->
  truthy t = true ->
  gh_comments (remote w) (headers_authorization (defaults t)) discussionId
    = Data nodes ->
  single_line labelPrefix = false ->
  getDiscussionBotComments discussionId labelPrefix token w
    = (Return ∅, log (defaults t) (QueryComments discussionId 100) w).
Proof.
  intros Ht Hne Hc Hml.
  rewrite (getDiscussionBotComments_run _ _ _ _ _ _ Ht Hne Hc).
  assert (Hp : single_line (persona_prefix labelPrefix) = false)
    by (rewrite persona_prefix_single_line; exact Hml).
  assert (Hscan : forall l (acc : gset jsstring),
             foldl (scan_step (persona_prefix labelPrefix)) acc l = acc).
  { induction l as [|c l IH]; intros acc; simpl; [reflexivity|].
    rewrite (scan_step_two_lines _ _ _ Hp). apply IH. }
  unfold scan_comments. rewrite Hscan. reflexivity.
Qed.

(** X7 (scanned names are normalised).  Every name in the set the scanner
    returns is non-empty, holds no line feed, and neither starts nor ends
    with white space; so a persona whose configured name is not of that form
    is never in the set. *)
Theorem getDiscussionBotComments_names_normalised
    (discussionId labelPrefix : jsstring) token w t nodes :
  nullish token (env_GISCUS_BOT_GITHUB_TOKEN w) = Some t ->
  truthy t = true ->
  gh_comments (remote w) (headers_authorization (defaults t)) discussionId
    = Data nodes ->
  exists personas : gset jsstring,
    getDiscussionBotComments discussionId labelPrefix token w
      = (Return personas, log (defaults t) (QueryComments discussionId 100) w)
    /\ forall name, name ∈ personas ->
         truthy name = true /\ single_line name = true /\ no_outer_space name = true.
Proof.
  intros Ht Hne Hc. eexists. split.
  { apply (getDiscussionBotComments_run _ _ _ _ _ _ Ht Hne Hc). }
  intros name Hin. unfold scan_comments in Hin.
  apply scan_foldl_elem in Hin as [Hin | (c & _ & _ & -> & Hne')].
  { exfalso. exact (not_elem_of_empty _ Hin). }
  split; [apply truthy_spec, Hne'|]. split.
  - apply single_line_trim, single_line_drop, single_line_spec, first_elt_split_free.
  - apply no_outer_space_of_trim.
Qed.

(** X8 (the order and the repetition of comments do not matter).  Scanning
    two runs of comments one after the other gives the union of their scans,
    and scanning the same comments in another order gives the same set. *)
Theorem scan_comments_union_permutation (labelPrefix : jsstring)
    (xs ys : list CommentNode) :
  scan_comments labelPrefix (xs ++ ys)
    = scan_comments labelPrefix xs ∪ scan_comments labelPrefix ys
  /\ (xs ≡ₚ ys -> scan_comments labelPrefix xs = scan_comments labelPrefix ys).
Proof.
  unfold scan_comments. split.
  - apply set_eq. intros name.
    rewrite elem_of_union, !scan_foldl_elem. split.
    + intros [Hin | (c & Hc & Hadd)]; [exfalso; exact (not_elem_of_empty _ Hin)|].
      apply elem_of_app in Hc as [Hc | Hc]; [left | right]; right; eauto.
    + intros [[Hin | (c & Hc & Hadd)] | [Hin | (c & Hc & Hadd)]];
        try (exfalso; exact (not_elem_of_empty _ Hin));
        right; exists c; (split; [apply elem_of_app; auto | exact Hadd]).
  - intros Hp. apply set_eq. intros name. rewrite !scan_foldl_elem.
    split; (intros [Hin | (c & Hc & Hadd)]; [left; exact Hin|]);
      right; exists c; (split; [|exact Hadd]).
    + rewrite <- Hp. exact Hc.
    + rewrite Hp. exact Hc.
Qed.

(** X9 (the scan sees one page).  The scanner asks for the first 100
    comments and uses nothing else: when the comments before the 101st
    contribute no name equal to [name], that name is not in the returned set,
    whatever the later comments are, among them a comment of that persona in
    the wire format. *)
Theorem getDiscussionBotComments_page_bound
    (discussionId labelPrefix name : jsstring) token w t page1 later :
  nullish token (env_GISCUS_BOT_GITHUB_TOKEN w) = Some t ->
  truthy t = true ->
  gh_comments (remote w) (headers_authorization (defaults t)) discussionId
    = Data (page1 ++ later) ->
  length page1 = 100%nat ->
  name ∉ scan_comments labelPrefix page1 ->
  exists personas : gset jsstring,
    getDiscussionBotComments discussionId labelPrefix token w
      = (Return personas, log (defaults t) (QueryComments discussionId 100) w)
    /\ personas = scan_comments labelPrefix page1
    /\ name ∉ personas.
Proof.
  intros Ht Hne Hc Hlen Hout. eexists. split.
  { apply (getDiscussionBotComments_run _ _ _ _ _ _ Ht Hne Hc). }
  assert (Hpage : page 100 (page1 ++ later) = page1).
  { unfold page. change (N.to_nat 100) with 100%nat.
    rewrite <- Hlen. apply take_app_length. }
  rewrite Hpage. split; [reflexivity | exact Hout].
Qed.

End ScannerFacts.

(** ** The action: choosing the posts of a run *)

Lemma insert_Permutation {A} (l : list A) (i : nat) (x y : A) :
  l !! i = Some x -> <[i := y]> l ≡ₚ y :: delete i l.
Proof.
  revert i. induction l as [|a l IH]; intros [|i]; simpl; try discriminate.
  - intros _. reflexivity.
  - intros Hi. rewrite (IH i Hi). apply perm_swap.
Qed.

(** Exchanging two elements of an array permutes it. *)
Lemma swap_Permutation {A} (i j : nat) (arr : list A) : Action.swap i j arr ≡ₚ arr.
Proof.
  unfold Action.swap.
  destruct (arr !! i) as [x|] eqn:Hi; [|reflexivity].
  destruct (arr !! j) as [y|] eqn:Hj; [|reflexivity].
  destruct (decide (i = j)) as [->|Hne].
  - rewrite list_insert_insert_eq. rewrite list_insert_id; [reflexivity|congruence].
  - assert (Hj' : <[i := y]> arr !! j = Some y)
      by (rewrite list_lookup_insert_ne by exact Hne; exact Hj).
    rewrite (insert_Permutation _ _ _ x Hj').
    pose proof (delete_Permutation _ _ _ Hj') as H1.
    rewrite (insert_Permutation _ _ _ y Hi) in H1 at 1.
    apply Permutation_cons_inv in H1. rewrite <- H1.
    symmetry. apply delete_Permutation, Hi.
Qed.

Lemma shuffle_from_Permutation {A} (draw : forall i : nat, fin (S i)) (i : nat)
    (arr : list A) :
  Action.shuffle_from draw i arr ≡ₚ arr.
Proof.
  revert arr. induction i as [|i IH]; intros arr; simpl; [reflexivity|].
  rewrite IH. apply swap_Permutation.
Qed.

Lemma slice_end_le (len : nat) (end_ : Action.Number) :
  (Action.slice_end len end_ <= len)%nat.
Proof.
  destruct end_ as [| | |q]; simpl; try lia.
  destruct (Z.ltb_spec (Z.quot (QArith_base.Qnum q) (Z.pos (QArith_base.Qden q))) 0); lia.
Qed.

(** X10 (the shuffle loses nothing).  Whatever the random draws are,
    [shuffle] returns a permutation of its array: the same elements, each as
    many times as before, hence as many of them. *)
Theorem shuffle_permutation {A} (draw : forall i : nat, fin (S i)) (arr : list A) :
  Action.shuffle draw arr ≡ₚ arr
  /\ length (Action.shuffle draw arr) = length arr
  /\ (NoDup arr -> NoDup (Action.shuffle draw arr)).
Proof.
  assert (Hp : Action.shuffle draw arr ≡ₚ arr) by apply shuffle_from_Permutation.
  split; [exact Hp|]. split.
  - apply Permutation_length, Hp.
  - intros Hnd. rewrite Hp. exact Hnd.
Qed.

(** X11 (the posts of a run are posts that were found).  The selected posts
    are part of a rearrangement of the files found: each selected file was
    found, no file is selected more often than it was found, and distinct
    files found give distinct files selected. *)
Theorem selected_from_found (draw : forall i : nat, fin (S i))
    (postsPerRun : option Action.Number) (allFiles : list jsstring) :
  (exists others, Action.selected draw postsPerRun allFiles ++ others ≡ₚ allFiles)
  /\ (forall file, file ∈ Action.selected draw postsPerRun allFiles -> file ∈ allFiles)
  /\ (NoDup allFiles -> NoDup (Action.selected draw postsPerRun allFiles)).
Proof.
  unfold Action.selected, Action.slice_to. cbv zeta.
  set (k := Action.slice_end _ _).
  assert (Hp : take k (Action.shuffle draw allFiles)
               ++ drop k (Action.shuffle draw allFiles) ≡ₚ allFiles).
  { rewrite take_drop. apply shuffle_from_Permutation. }
  split; [eexists; exact Hp|]. split.
  - intros file Hin. rewrite <- Hp. apply elem_of_app. left; exact Hin.
  - intros Hnd. rewrite <- Hp in Hnd. apply NoDup_app in Hnd as [Hnd _]. exact Hnd.
Qed.

(** X12 (how many posts a run takes).  The number of selected posts is the
    end index of [slice(0, postsPerRun ?? 1)] over the files found: one post
    when [postsPerRun] is not set (none when no file was found); [k] posts,
    or all of them when fewer were found, for a count [k]; all but the last
    [k] of the shuffled files for a negative count [-k]; none for [NaN]. *)
Theorem selected_count (draw : forall i : nat, fin (S i))
    (postsPerRun : option Action.Number) (allFiles : list jsstring) :
  length (Action.selected draw postsPerRun allFiles)
    = Action.slice_end (length allFiles)
        (default (Action.Finite (QArith_base.Qmake 1 1)) postsPerRun)
  /\ (postsPerRun = None ->
      length (Action.selected draw postsPerRun allFiles)
        = Nat.min 1 (length allFiles))
  /\ (forall k : nat,
        postsPerRun = Some (Action.Finite (QArith_base.Qmake (Z.of_nat k) 1)) ->
        length (Action.selected draw postsPerRun allFiles)
          = Nat.min k (length allFiles))
  /\ (forall k : nat,
        postsPerRun = Some (Action.Finite (QArith_base.Qmake (- Z.of_nat (S k)) 1)) ->
        length (Action.selected draw postsPerRun allFiles)
          = (length allFiles - S k)%nat)
  /\ (postsPerRun = Some Action.NaN ->
      Action.selected draw postsPerRun allFiles = []).
Proof.
  assert (Hlen : length (Action.selected draw postsPerRun allFiles)
                 = Action.slice_end (length allFiles)
                     (default (Action.Finite (QArith_base.Qmake 1 1)) postsPerRun)).
  { unfold Action.selected, Action.slice_to. cbv zeta.
    rewrite length_take.
    pose proof (Permutation_length (shuffle_from_Permutation draw
                  (length allFiles - 1) allFiles)) as Hl.
    unfold Action.shuffle. rewrite Hl.
    pose proof (slice_end_le (length allFiles)
                  (default (Action.Finite (QArith_base.Qmake 1 1)) postsPerRun)).
    lia. }
  split; [exact Hlen|]. split; [|split; [|split]].
  - intros ->. rewrite Hlen. simpl default. unfold Action.slice_end.
    simpl QArith_base.Qnum. simpl QArith_base.Qden. rewrite Z.quot_1_r.
    destruct (Z.ltb_spec 1 0); lia.
  - intros k ->. rewrite Hlen. simpl default. unfold Action.slice_end.
    simpl QArith_base.Qnum. simpl QArith_base.Qden. rewrite Z.quot_1_r.
    destruct (Z.ltb_spec (Z.of_nat k) 0); lia.
  - intros k ->. rewrite Hlen. simpl default. unfold Action.slice_end.
    simpl QArith_base.Qnum. simpl QArith_base.Qden. rewrite Z.quot_1_r.
    destruct (Z.ltb_spec (- Z.of_nat (S k)) 0); lia.
  - intros ->. apply nil_length_inv. rewrite Hlen. reflexivity.
Qed.

(** ** The action: inputs and credentials *)

Lemma given_Some (value : option jsstring) (v : jsstring) :
  Action.given value = Some v <-> value = Some v /\ truthy v = true.
Proof.
  unfold Action.given. destruct value as [x|]; [destruct (truthy x) eqn:Hx|]; split;
    try (intros [= <-]; auto); try (intros [[= <-] H]; congruence);
    try (intros [[=] _]); try discriminate.
Qed.

(** The variable the provider key goes to is never the token variable,
    unless an inherited member is spelt that way. *)
Lemma PROVIDER_ENV_MAP_not_token (inherited : jsstring -> option jsstring)
    (providerName key : jsstring) :
  (forall name k, inherited name = Some k -> k <> lit "GISCUS_BOT_GITHUB_TOKEN") ->
  Action.PROVIDER_ENV_MAP inherited providerName = Some key ->
  key <> lit "GISCUS_BOT_GITHUB_TOKEN".
Proof.
  intros Hinh. unfold Action.PROVIDER_ENV_MAP.
  destruct (strict_eq providerName (lit "openai")); [intros [= <-]; discriminate|].
  destruct (strict_eq providerName (lit "claude")); [intros [= <-]; discriminate|].
  apply Hinh.
Qed.

Section Credentials.

Context {Remote : Type} `{!GitHub Remote}.

(** X13 (the action hands its token to the publisher).  When the head of
    [run] gets through, the input [github-token] was set and not empty, and
    [GISCUS_BOT_GITHUB_TOKEN] now holds it: in the environment it leaves, the
    publisher builds its client from that token when none is passed to it.
    (No member inherited from [Object.prototype] is spelt
    GISCUS_BOT_GITHUB_TOKEN.) *)
Theorem export_credentials_feeds_publisher
    (inherited : jsstring -> option jsstring) (env env' : Action.Env) :
  (forall name k, inherited name = Some k -> k <> lit "GISCUS_BOT_GITHUB_TOKEN") ->
  Action.export_credentials inherited env = Return env' ->
  exists githubToken,
    env !! lit "INPUT_GITHUB_TOKEN" = Some githubToken
    /\ truthy githubToken = true
    /\ env' !! lit "GISCUS_BOT_GITHUB_TOKEN" = Some githubToken
    /\ forall (r : Remote) (log : list Request),
         createClient None (Action.world_of r env' log)
         = (Return (defaults githubToken), Action.world_of r env' log).
Proof.
  intros Hinh. unfold Action.export_credentials. cbv zeta.
  destruct (Action.given (env !! lit "INPUT_GITHUB_TOKEN")) as [tok|] eqn:Ht;
    [|discriminate].
  destruct (Action.given (env !! lit "INPUT_PROVIDER")) as [prov|]; [|discriminate].
  destruct (Action.given (env !! lit "INPUT_API_KEY")) as [key|]; [|discriminate].
  apply given_Some in Ht as [Ht Hne].
  assert (Hout : forall e : Action.Env,
             match Action.PROVIDER_ENV_MAP inherited prov with
             | Some name => Return (<[name := key]> e)
             | None => Return e
             end = Return env' ->
             env' !! lit "GISCUS_BOT_GITHUB_TOKEN" = e !! lit "GISCUS_BOT_GITHUB_TOKEN").
  { intros e. destruct (Action.PROVIDER_ENV_MAP inherited prov) as [name|] eqn:Hp.
    - intros [= <-]. apply lookup_insert_ne.
      apply (PROVIDER_ENV_MAP_not_token _ _ _ Hinh Hp).
    - intros [= <-]. reflexivity. }
  intros Hrun. apply Hout in Hrun. rewrite lookup_insert_eq in Hrun.
  exists tok. split; [exact Ht|]. split; [exact Hne|]. split; [exact Hrun|].
  intros r log. apply createClient_ok; [|exact Hne].
  simpl. exact Hrun.
Qed.

End Credentials.

(** X14 (the three required inputs).  The head of [run] gets through exactly
    when the inputs [github-token], [provider] and [api-key] are all set and
    not empty; a missing or empty [github-token] is reported first.  When it
    gets through, the key of the provider "openai" or "claude" is exported
    under that provider's variable, and every variable other than the token
    variable and the one the provider key goes to is as it was. *)
Theorem export_credentials_required_inputs
    (inherited : jsstring -> option jsstring) (env : Action.Env) :
  ((exists env', Action.export_credentials inherited env = Return env')
   <-> is_Some (Action.given (env !! lit "INPUT_GITHUB_TOKEN"))
       /\ is_Some (Action.given (env !! lit "INPUT_PROVIDER"))
       /\ is_Some (Action.given (env !! lit "INPUT_API_KEY")))
  /\ (Action.given (env !! lit "INPUT_GITHUB_TOKEN") = None ->
      Action.export_credentials inherited env
      = Throw (Error (lit "github-token input is required")))
  /\ (forall env' apiKey,
        Action.export_credentials inherited env = Return env' ->
        env !! lit "INPUT_API_KEY" = Some apiKey ->
        (env !! lit "INPUT_PROVIDER" = Some (lit "openai") ->
         env' !! lit "GISCUS_BOT_OPENAI_API_KEY" = Some apiKey)
        /\ (env !! lit "INPUT_PROVIDER" = Some (lit "claude") ->
            env' !! lit "GISCUS_BOT_CLAUDE_API_KEY" = Some apiKey)
        /\ forall name providerName,
             name <> lit "GISCUS_BOT_GITHUB_TOKEN" ->
             env !! lit "INPUT_PROVIDER" = Some providerName ->
             Action.PROVIDER_ENV_MAP inherited providerName <> Some name ->
             env' !! name = env !! name).
Proof.
  unfold Action.export_credentials. cbv zeta.
  destruct (Action.given (env !! lit "INPUT_GITHUB_TOKEN")) as [tok|] eqn:Ht.
  2:{ split; [|split].
      - split; [intros [e [=]] | intros ([x [=]] & _)].
      - reflexivity.
      - intros e k [=]. }
  destruct (Action.given (env !! lit "INPUT_PROVIDER")) as [prov|] eqn:Hp.
  2:{ split; [|split].
      - split; [intros [e [=]] | intros (_ & [x [=]] & _)].
      - discriminate.
      - intros e k [=]. }
  destruct (Action.given (env !! lit "INPUT_API_KEY")) as [key|] eqn:Hk.
  2:{ split; [|split].
      - split; [intros [e [=]] | intros (_ & _ & [x [=]])].
      - discriminate.
      - intros e k [=]. }
  apply given_Some in Hp as [Hp _]. apply given_Some in Hk as [Hk _].
  split; [|split].
  - split; [intros _; repeat split; eauto|].
    intros _. destruct (Action.PROVIDER_ENV_MAP inherited prov); eauto.
  - discriminate.
  - intros env' apiKey Hrun Hkey.
    assert (apiKey = key) as -> by congruence.
    split; [|split].
    + intros Hprov. assert (prov = lit "openai") as -> by congruence.
      simpl in Hrun. injection Hrun as <-. apply lookup_insert_eq.
    + intros Hprov. assert (prov = lit "claude") as -> by congruence.
      simpl in Hrun. injection Hrun as <-. apply lookup_insert_eq.
    + intros name providerName Hname Hprov Hmap.
      assert (providerName = prov) as -> by congruence.
      destruct (Action.PROVIDER_ENV_MAP inherited prov) as [k|].
      * injection Hrun as <-.
        rewrite lookup_insert_ne by congruence.
        rewrite lookup_insert_ne by (intros E; apply Hname; symmetry; exact E).
        reflexivity.
      * injection Hrun as <-.
        rewrite lookup_insert_ne by (intros E; apply Hname; symmetry; exact E).
        reflexivity.
Qed.

(** ** The action: the posts of a push *)

Lemma endsWith_spec (s suffix : jsstring) :
  Action.endsWith s suffix = true <-> exists stem, s = stem ++ suffix.
Proof.
  unfold Action.endsWith. rewrite startsWith_spec. split.
  - intros [r Hr]. exists (rev r).
    apply (f_equal (@rev N)) in Hr.
    rewrite rev_involutive, rev_app_distr, rev_involutive in Hr. exact Hr.
  - intros [stem ->]. exists (rev stem). apply rev_app_distr.
Qed.

Lemma detect_inner (files added : list jsstring) :
  foldl (fun files file =>
           if Action.matches_markdown file && Action.matches_content_dir file
           then files ++ [file] else files) files added
  = files ++ List.filter
               (fun file => Action.matches_markdown file
                            && Action.matches_content_dir file) added.
Proof.
  revert files. induction added as [|f added IH]; intros files; simpl.
  - rewrite app_nil_r. reflexivity.
  - rewrite IH.
    destruct (Action.matches_markdown f && Action.matches_content_dir f); simpl;
      [rewrite <- app_assoc|]; reflexivity.
Qed.

Lemma detect_outer (files : list jsstring) (commits : list Action.Commit) :
  foldl (fun files commit =>
           foldl (fun files file =>
                    if Action.matches_markdown file && Action.matches_content_dir file
                    then files ++ [file] else files)
                 files (default [] (Action.added commit)))
        files commits
  = files ++ List.filter
               (fun file => Action.matches_markdown file
                            && Action.matches_content_dir file)
               (concat (map (fun commit => default [] (Action.added commit)) commits)).
Proof.
  revert files. induction commits as [|c commits IH]; intros files; simpl.
  - rewrite app_nil_r. reflexivity.
  - rewrite IH, detect_inner, List.filter_app, app_assoc. reflexivity.
Qed.

(** X15 (the posts of a push).  The push trigger processes exactly the files
    that some commit of the push added and whose path ends in [.md] or
    [.mdx] and starts with one of [content/], [_posts/], [src/posts/],
    [posts/], [blog/]: they are taken in the order of the commits, once for
    each commit that adds them.  Without a list of commits nothing is
    processed. *)
Theorem detect_new_posts_spec (commits : list Action.Commit) :
  Action.detect_new_posts None = []
  /\ Action.detect_new_posts (Some commits)
     = List.filter
         (fun file => Action.matches_markdown file && Action.matches_content_dir file)
         (concat (map (fun commit => default [] (Action.added commit)) commits))
  /\ forall file,
       file ∈ Action.detect_new_posts (Some commits) <->
       (exists commit files,
          commit ∈ commits /\ Action.added commit = Some files /\ file ∈ files)
       /\ (exists stem, file = stem ++ lit ".md" \/ file = stem ++ lit ".mdx")
       /\ (exists dir rest,
             dir ∈ [lit "content"; lit "_posts"; lit "src/posts"; lit "posts";
                    lit "blog"]
             /\ file = dir ++ lit "/" ++ rest).
Proof.
  assert (Heq : Action.detect_new_posts (Some commits)
                = List.filter
                    (fun file => Action.matches_markdown file
                                 && Action.matches_content_dir file)
                    (concat (map (fun commit => default [] (Action.added commit))
                               commits))).
  { unfold Action.detect_new_posts. rewrite detect_outer. reflexivity. }
  split; [reflexivity|]. split; [exact Heq|].
  intros file. rewrite Heq, list_elem_of_In, filter_In, in_concat, andb_true_iff.
  unfold Action.matches_markdown, Action.matches_content_dir.
  rewrite orb_true_iff, !endsWith_spec, existsb_exists.
  split.
  - intros [(l & Hl & Hf) [Hmd (dir & Hdir & Hstart)]].
    apply in_map_iff in Hl as (commit & Hadd & Hc).
    split; [|split].
    + destruct (Action.added commit) as [files|] eqn:Ha; simpl in Hadd; subst l.
      * exists commit, files. rewrite !list_elem_of_In. auto.
      * destruct Hf.
    + destruct Hmd as [[stem ->] | [stem ->]]; exists stem; auto.
    + apply startsWith_spec in Hstart as [rest ->].
      exists dir, rest. rewrite list_elem_of_In, <- app_assoc. auto.
  - intros [(commit & files & Hc & Ha & Hf) [[stem Hmd] (dir & rest & Hdir & ->)]].
    split; [|split].
    + exists files. split; [|apply list_elem_of_In, Hf].
      apply in_map_iff. exists commit. rewrite Ha. split; [reflexivity|].
      apply list_elem_of_In, Hc.
    + destruct Hmd as [-> | ->]; [left | right]; exists stem; reflexivity.
    + exists dir. split; [apply list_elem_of_In, Hdir|].
      apply startsWith_spec. exists rest. rewrite <- app_assoc. reflexivity.
Qed.

(** ** The writers and the resolver at their edges *)

Section Edges.

Context {Remote : Type} `{!GitHub Remote}.
Variable toLowerCase : jsstring -> jsstring.

Implicit Types (w : World Remote) (token : option jsstring).


(** X17 (the resolver at its edges).  With a usable token and a reply to the
    categories query: in a repository without categories every name fails,
    with a message that lists nothing after "Available: "; and only the
    first 25 categories of the repository are looked at, so a name borne by
    a later category alone fails too, with a message that lists those 25. *)
Theorem getRepoInfo_edges (owner repo categoryName : jsstring) token w t rd :
  nullish token (env_GISCUS_BOT_GITHUB_TOKEN w) = Some t ->
  truthy t = true ->
  gh_repository (remote w) (headers_authorization (defaults t)) owner repo = Data rd ->
  (discussionCategories rd = [] ->
   getRepoInfo toLowerCase owner repo categoryName token w
   = (Throw (Error (lit "Discussion category " ++ [QUOTE] ++ categoryName ++ [QUOTE]
                    ++ lit " not found. Available: ")),
      log (defaults t) (QueryRepository owner repo 25) w))
  /\ (forall first25 later,
        discussionCategories rd = first25 ++ later ->
        length first25 = 25%nat ->
        (forall c, c ∈ first25 -> toLowerCase (cat_name c) <> toLowerCase categoryName) ->
        getRepoInfo toLowerCase owner repo categoryName token w
        = (Throw (Error (category_not_found categoryName
                           (join (lit ", ") (map cat_name first25)))),
           log (defaults t) (QueryRepository owner repo 25) w)).
Proof.
  intros Ht Hne Hr. split.
  - intros Hnil.
    rewrite (getRepoInfo_run toLowerCase owner repo categoryName token w t rd Ht Hne Hr).
    rewrite Hnil. simpl. unfold category_not_found. simpl.
    rewrite ?app_nil_r. reflexivity.
  - intros first25 later Hcats Hlen Hmiss.
    rewrite (getRepoInfo_run toLowerCase owner repo categoryName token w t rd Ht Hne Hr).
    assert (Hpage : page 25 (discussionCategories rd) = first25).
    { rewrite Hcats. unfold page. change (N.to_nat 25) with 25%nat.
      rewrite <- Hlen. apply take_app_length. }
    rewrite Hpage.
    assert (Ef : find (fun c => strict_eq (toLowerCase (cat_name c))
                                  (toLowerCase categoryName)) first25 = None).
    { apply find_none_iff. intros c Hc. apply strict_eq_false, Hmiss, Hc. }
    rewrite Ef. reflexivity.
Qed.

End Edges.

(** ** Worked examples of the further properties *)

Lemma queries_leave_remote_unchanged_witness :
  remote (snd (findDiscussion Directory.owner Directory.repo (lit "My Post") None
                 (Directory.world Directory.blog (Some Directory.pat))))
    = Directory.blog
  /\ remote (snd (getDiscussionBotComments (lit "D_404") Directory.default_prefix None
                    (Directory.world Directory.blog (Some Directory.pat))))
     = Directory.blog.
Proof.
  destruct (@queries_leave_remote_unchanged _ Directory.github ascii_toLowerCase None
              (Directory.world Directory.blog (Some Directory.pat)))
    as (_ & Hfind & Hscan).
  split.
  - exact (proj1 (Hfind Directory.owner Directory.repo (lit "My Post") _ _
                    (surjective_pairing _))).
  - exact (proj1 (Hscan (lit "D_404") Directory.default_prefix _ _
                    (surjective_pairing _))).
Defined.


Lemma requests_carry_the_token_witness :
  nullish None (env_GISCUS_BOT_GITHUB_TOKEN
                  (Directory.world Directory.blog (Some Directory.pat)))
    = Some Directory.pat
  /\ exists new,
       sent (snd (findOrCreateDiscussion ascii_toLowerCase Directory.owner
                    Directory.repo (lit "General") (lit "A New Post")
                    (lit "https://blog/new") None
                    (Directory.world Directory.blog (Some Directory.pat))))
       = [] ++ new
       /\ Forall (fun r => authorization r = lit "token " ++ Directory.pat) new.
Proof.
  split; [reflexivity|].
  exact (proj1 (@requests_carry_the_token _ Directory.github ascii_toLowerCase None
                  (Directory.world Directory.blog (Some Directory.pat)) Directory.pat
                  eq_refl)
           Directory.owner Directory.repo (lit "General") (lit "A New Post")
           (lit "https://blog/new") _ _ (surjective_pairing _)).
Defined.

Lemma findOrCreateDiscussion_category_miss_witness :
  nullish None (env_GISCUS_BOT_GITHUB_TOKEN
                  (Directory.world Directory.blog (Some Directory.pat)))
    = Some Directory.pat
  /\ truthy Directory.pat = true
  /\ (forall n, n ∈ page 5 (Directory.discussions Directory.blog) ->
        d_title n <> lit "A New Post")
  /\ (forall c, c ∈ page 25 (Directory.categories Directory.blog) ->
        ascii_toLowerCase (cat_name c) <> ascii_toLowerCase (lit "Nonexistent"))
  /\ exists w',
       findOrCreateDiscussion ascii_toLowerCase Directory.owner Directory.repo
         (lit "Nonexistent") (lit "A New Post") (lit "https://blog/new") None
         (Directory.world Directory.blog (Some Directory.pat))
       = (Throw (Error (category_not_found (lit "Nonexistent")
                          (lit "General, Blog Comments"))), w')
       /\ remote w' = Directory.blog
       /\ map operation (sent w')
          = [QuerySearch (searchQuery_of Directory.owner Directory.repo
                            (lit "A New Post")) 5;
             QueryRepository Directory.owner Directory.repo 25].
Proof.
  assert (Hmiss : forall n, n ∈ page 5 (Directory.discussions Directory.blog) ->
                    d_title n <> lit "A New Post").
  { intros n Hn.
    apply (proj1 (Forall_forall (fun n => d_title n <> lit "A New Post")
                    (page 5 (Directory.discussions Directory.blog)))); [|exact Hn].
    repeat constructor; discriminate. }
  assert (Hcat : forall c, c ∈ page 25 (Directory.categories Directory.blog) ->
            ascii_toLowerCase (cat_name c) <> ascii_toLowerCase (lit "Nonexistent")).
  { intros c Hc.
    apply (proj1 (Forall_forall
                    (fun c => ascii_toLowerCase (cat_name c)
                              <> ascii_toLowerCase (lit "Nonexistent"))
                    (page 25 (Directory.categories Directory.blog)))); [|exact Hc].
    repeat constructor; discriminate. }
  split; [reflexivity|]. split; [reflexivity|]. split; [exact Hmiss|].
  split; [exact Hcat|].
  exact (@findOrCreateDiscussion_category_miss _ Directory.github ascii_toLowerCase
           Directory.owner Directory.repo (lit "Nonexistent") (lit "A New Post")
           (lit "https://blog/new") None
           (Directory.world Directory.blog (Some Directory.pat)) Directory.pat
           (Directory.discussions Directory.blog)
           {| repository_id := lit "R_1";
              discussionCategories := Directory.categories Directory.blog |}
           eq_refl eq_refl eq_refl Hmiss eq_refl Hcat).
Defined.


Lemma getDiscussionBotComments_two_line_prefix_witness :
  nullish None (env_GISCUS_BOT_GITHUB_TOKEN
                  (Directory.world Directory.relabelled (Some Directory.pat)))
    = Some Directory.pat
  /\ truthy Directory.pat = true
  /\ single_line Directory.two_line_prefix = false
  /\ getDiscussionBotComments (lit "D_1") Directory.two_line_prefix None
       (Directory.world Directory.relabelled (Some Directory.pat))
     = (Return ∅,
        log (defaults Directory.pat) (QueryComments (lit "D_1") 100)
          (Directory.world Directory.relabelled (Some Directory.pat))).
Proof.
  do 3 (split; [reflexivity|]).
  exact (@getDiscussionBotComments_two_line_prefix _ Directory.github
           (lit "D_1") Directory.two_line_prefix None
           (Directory.world Directory.relabelled (Some Directory.pat)) Directory.pat
           _ eq_refl eq_refl eq_refl eq_refl).
Defined.

Lemma getDiscussionBotComments_names_normalised_witness :
  nullish None (env_GISCUS_BOT_GITHUB_TOKEN
                  (Directory.world Directory.padded (Some Directory.pat)))
    = Some Directory.pat
  /\ truthy Directory.pat = true
  /\ exists personas : gset jsstring,
       getDiscussionBotComments (lit "D_1") Directory.default_prefix None
         (Directory.world Directory.padded (Some Directory.pat))
       = (Return personas,
          log (defaults Directory.pat) (QueryComments (lit "D_1") 100)
            (Directory.world Directory.padded (Some Directory.pat)))
       /\ forall name, name ∈ personas ->
            truthy name = true /\ single_line name = true
            /\ no_outer_space name = true.
Proof.
  do 2 (split; [reflexivity|]).
  exact (@getDiscussionBotComments_names_normalised _ Directory.github
           (lit "D_1") Directory.default_prefix None
           (Directory.world Directory.padded (Some Directory.pat)) Directory.pat
           _ eq_refl eq_refl eq_refl).
Defined.

Lemma scan_comments_union_permutation_witness :
  [{| body := lit "Nice article, thanks." |};
   {| body := formatComment Directory.default_prefix (lit "Curious Reader")
                (lit "Great post!") |}]
  ≡ₚ [{| body := formatComment Directory.default_prefix (lit "Curious Reader")
                   (lit "Great post!") |};
      {| body := lit "Nice article, thanks." |}]
  /\ scan_comments Directory.default_prefix
       [{| body := lit "Nice article, thanks." |};
        {| body := formatComment Directory.default_prefix (lit "Curious Reader")
                     (lit "Great post!") |}]
     = scan_comments Directory.default_prefix
         [{| body := formatComment Directory.default_prefix (lit "Curious Reader")
                       (lit "Great post!") |};
          {| body := lit "Nice article, thanks." |}].
Proof.
  split; [apply perm_swap|].
  apply (proj2 (scan_comments_union_permutation Directory.default_prefix _ _)).
  apply perm_swap.
Defined.

Lemma getDiscussionBotComments_page_bound_witness :
  nullish None (env_GISCUS_BOT_GITHUB_TOKEN
                  (Directory.world Directory.busy (Some Directory.pat)))
    = Some Directory.pat
  /\ truthy Directory.pat = true
  /\ gh_comments Directory.busy (headers_authorization (defaults Directory.pat))
       (lit "D_1")
     = Data (replicate 100 {| body := lit "Nice article, thanks." |}
             ++ [{| body := formatComment Directory.default_prefix
                              (lit "Curious Reader") (lit "Great post!") |}])
  /\ length (replicate 100 {| body := lit "Nice article, thanks." |}) = 100%nat
  /\ (lit "Curious Reader"
        ∉ scan_comments Directory.default_prefix
            (replicate 100 {| body := lit "Nice article, thanks." |}))
  /\ exists personas : gset jsstring,
       getDiscussionBotComments (lit "D_1") Directory.default_prefix None
         (Directory.world Directory.busy (Some Directory.pat))
       = (Return personas,
          log (defaults Directory.pat) (QueryComments (lit "D_1") 100)
            (Directory.world Directory.busy (Some Directory.pat)))
       /\ personas
          = scan_comments Directory.default_prefix
              (replicate 100 {| body := lit "Nice article, thanks." |})
       /\ lit "Curious Reader" ∉ personas.
Proof.
  assert (Hempty : scan_comments Directory.default_prefix
                     (replicate 100 {| body := lit "Nice article, thanks." |}) = ∅)
    by (vm_compute; reflexivity).
  assert (Hout : lit "Curious Reader"
                   ∉ scan_comments Directory.default_prefix
                       (replicate 100 {| body := lit "Nice article, thanks." |}))
    by (rewrite Hempty; apply not_elem_of_empty).
  do 4 (split; [reflexivity|]). split; [exact Hout|].
  exact (@getDiscussionBotComments_page_bound _ Directory.github
           (lit "D_1") Directory.default_prefix (lit "Curious Reader") None
           (Directory.world Directory.busy (Some Directory.pat)) Directory.pat
           (replicate 100 {| body := lit "Nice article, thanks." |})
           [{| body := formatComment Directory.default_prefix
                         (lit "Curious Reader") (lit "Great post!") |}]
           eq_refl eq_refl eq_refl eq_refl Hout).
Defined.

Lemma shuffle_permutation_witness :
  NoDup [1%nat; 2%nat; 3%nat]
  /\ Action.shuffle Action.always_first [1%nat; 2%nat; 3%nat] = [2%nat; 3%nat; 1%nat]
  /\ NoDup (Action.shuffle Action.always_first [1%nat; 2%nat; 3%nat]).
Proof.
  assert (Hnd : NoDup [1%nat; 2%nat; 3%nat])
    by (apply (bool_decide_unpack _); vm_compute; exact I).
  split; [exact Hnd|]. split; [reflexivity|].
  exact (proj2 (proj2 (shuffle_permutation Action.always_first
                         [1%nat; 2%nat; 3%nat])) Hnd).
Defined.

Lemma selected_from_found_witness :
  NoDup [lit "_posts/a.md"; lit "_posts/b.md"; lit "blog/c.mdx"]
  /\ Action.selected Action.always_first
       (Some (Action.Finite (QArith_base.Qmake 2 1)))
       [lit "_posts/a.md"; lit "_posts/b.md"; lit "blog/c.mdx"]
     = [lit "_posts/b.md"; lit "blog/c.mdx"]
  /\ NoDup (Action.selected Action.always_first
              (Some (Action.Finite (QArith_base.Qmake 2 1)))
              [lit "_posts/a.md"; lit "_posts/b.md"; lit "blog/c.mdx"]).
Proof.
  assert (Hnd : NoDup [lit "_posts/a.md"; lit "_posts/b.md"; lit "blog/c.mdx"])
    by (apply (bool_decide_unpack _); vm_compute; exact I).
  split; [exact Hnd|]. split; [reflexivity|].
  exact (proj2 (proj2 (selected_from_found Action.always_first
                         (Some (Action.Finite (QArith_base.Qmake 2 1)))
                         [lit "_posts/a.md"; lit "_posts/b.md"; lit "blog/c.mdx"]))
           Hnd).
Defined.

Lemma selected_count_witness :
  length (Action.selected Action.always_first None
            [lit "_posts/a.md"; lit "_posts/b.md"; lit "blog/c.mdx"]) = 1%nat
  /\ length (Action.selected Action.always_first
               (Some (Action.Finite (QArith_base.Qmake (- Z.of_nat 1) 1)))
               [lit "_posts/a.md"; lit "_posts/b.md"; lit "blog/c.mdx"]) = 2%nat
  /\ Action.selected Action.always_first (Some Action.NaN)
       [lit "_posts/a.md"; lit "_posts/b.md"; lit "blog/c.mdx"] = [].
Proof.
  split; [|split].
  - exact (proj1 (proj2 (selected_count Action.always_first None
                           [lit "_posts/a.md"; lit "_posts/b.md"; lit "blog/c.mdx"]))
             eq_refl).
  - exact (proj1 (proj2 (proj2 (proj2
             (selected_count Action.always_first
                (Some (Action.Finite (QArith_base.Qmake (- Z.of_nat 1) 1)))
                [lit "_posts/a.md"; lit "_posts/b.md"; lit "blog/c.mdx"]))))
             0%nat eq_refl).
  - exact (proj2 (proj2 (proj2 (proj2
             (selected_count Action.always_first (Some Action.NaN)
                [lit "_posts/a.md"; lit "_posts/b.md"; lit "blog/c.mdx"]))))
             eq_refl).
Defined.

Lemma object_prototype_not_token (name k : jsstring) :
  Action.object_prototype name = Some k -> k <> lit "GISCUS_BOT_GITHUB_TOKEN".
Proof.
  unfold Action.object_prototype.
  destruct (strict_eq name (lit "toString")); [intros [= <-]; discriminate|].
  destruct (strict_eq name (lit "__proto__")); [intros [= <-]; discriminate|].
  discriminate.
Defined.

Lemma export_credentials_feeds_publisher_witness :
  Action.export_credentials Action.object_prototype Action.inputs
    = Return (<[lit "GISCUS_BOT_OPENAI_API_KEY" := lit "sk-1"]>
                (<[lit "GISCUS_BOT_GITHUB_TOKEN" := lit "ghp_0123456789"]>
                   Action.inputs))
  /\ createClient None
       (Action.world_of Directory.blog
          (<[lit "GISCUS_BOT_OPENAI_API_KEY" := lit "sk-1"]>
             (<[lit "GISCUS_BOT_GITHUB_TOKEN" := lit "ghp_0123456789"]>
                Action.inputs)) [])
     = (Return (defaults (lit "ghp_0123456789")),
        Action.world_of Directory.blog
          (<[lit "GISCUS_BOT_OPENAI_API_KEY" := lit "sk-1"]>
             (<[lit "GISCUS_BOT_GITHUB_TOKEN" := lit "ghp_0123456789"]>
                Action.inputs)) []).
Proof.
  assert (Hrun : Action.export_credentials Action.object_prototype Action.inputs
                 = Return (<[lit "GISCUS_BOT_OPENAI_API_KEY" := lit "sk-1"]>
                             (<[lit "GISCUS_BOT_GITHUB_TOKEN" := lit "ghp_0123456789"]>
                                Action.inputs)))
    by (vm_compute; reflexivity).
  split; [exact Hrun|].
  destruct (@export_credentials_feeds_publisher Directory.t
              Action.object_prototype Action.inputs _
              object_prototype_not_token Hrun)
    as (tok & Htok & _ & _ & Hclient).
  assert (tok = lit "ghp_0123456789") as ->.
  { assert (Hin : Action.inputs !! lit "INPUT_GITHUB_TOKEN" = Some (lit "ghp_0123456789"))
      by (vm_compute; reflexivity).
    congruence. }
  apply Hclient.
Defined.

Lemma export_credentials_required_inputs_witness :
  Action.export_credentials Action.object_prototype
    (delete (lit "INPUT_GITHUB_TOKEN") Action.inputs)
    = Throw (Error (lit "github-token input is required"))
  /\ exists env', Action.export_credentials Action.object_prototype Action.inputs
                  = Return env'.
Proof.
  split.
  - apply (proj1 (proj2 (export_credentials_required_inputs Action.object_prototype
                           (delete (lit "INPUT_GITHUB_TOKEN") Action.inputs)))).
    vm_compute. reflexivity.
  - apply (proj1 (export_credentials_required_inputs Action.object_prototype
                    Action.inputs)).
    repeat split; vm_compute; eexists; reflexivity.
Defined.

(** The push of the samples: the blog post added twice is listed twice, the
    README and the text file are left out. *)
Lemma detect_new_posts_spec_witness :
  Action.detect_new_posts (Some Action.push)
  = [lit "_posts/hello.md"; lit "src/posts/a.mdx"; lit "_posts/hello.md"].
Proof.
  rewrite (proj1 (proj2 (detect_new_posts_spec Action.push))). reflexivity.
Defined.


Lemma getRepoInfo_edges_witness :
  nullish None (env_GISCUS_BOT_GITHUB_TOKEN
                  (Directory.world Directory.bare (Some Directory.pat)))
    = Some Directory.pat
  /\ truthy Directory.pat = true
  /\ gh_repository Directory.bare (headers_authorization (defaults Directory.pat))
       Directory.owner Directory.repo
     = Data {| repository_id := lit "R_2"; discussionCategories := [] |}
  /\ getRepoInfo ascii_toLowerCase Directory.owner Directory.repo (lit "General") None
       (Directory.world Directory.bare (Some Directory.pat))
     = (Throw (Error (lit "Discussion category " ++ [QUOTE] ++ lit "General" ++ [QUOTE]
                      ++ lit " not found. Available: ")),
        log (defaults Directory.pat)
          (QueryRepository Directory.owner Directory.repo 25)
          (Directory.world Directory.bare (Some Directory.pat))).
Proof.
  do 3 (split; [reflexivity|]).
  exact (proj1 (@getRepoInfo_edges _ Directory.github ascii_toLowerCase
                  Directory.owner Directory.repo (lit "General") None
                  (Directory.world Directory.bare (Some Directory.pat)) Directory.pat
                  {| repository_id := lit "R_2"; discussionCategories := [] |}
                  eq_refl eq_refl eq_refl) eq_refl).
Defined.
